(** * rAdvisor log parser ([radvisor/parser.py]): shallow embedding and
    verification of its specification.

    The Python module is embedded function by function.  Calls that can
    raise return a [result]; the module's global names that the code
    looks up at call time ([BlkioEntry], [CpuUsage]) are kept in a
    [Globals] record, so that name resolution happens where Python
    performs it.  Text is [string] (code points below 256), integers are
    [Z], Python floats are the kernel's binary64 [float]. *)

From Stdlib Require Import ZArith List String Ascii Bool Lia.
From Stdlib Require Import Floats.PrimFloat Floats.SpecFloat Floats.FloatOps.
Import ListNotations.

Local Open Scope string_scope.
Local Open Scope Z_scope.

(* ================================================================= *)
(** ** Python runtime: exceptions, strings, integers, floats, dicts *)

Module Py.

(** The exceptions the parser and the library calls it makes can raise. *)
Inductive exn : Type :=
| StopIteration
| NameError (name : string)
| KeyError (key : string)
| ValueError
| TypeError
| AttributeError
| OverflowError
| IndexError
| FileNotFoundError
| CsvError (msg : string)       (* csv.Error *)
| YAMLError.

Inductive result (A : Type) : Type :=
| Ok (a : A)
| Raise (e : exn).
Arguments Ok {A} a.
Arguments Raise {A} e.

Definition bind {A B} (m : result A) (k : A -> result B) : result B :=
  match m with
  | Ok a => k a
  | Raise e => Raise e
  end.

Definition is_ok {A} (m : result A) : bool :=
  match m with Ok _ => true | Raise _ => false end.

(** [[f(x) for x in xs]]: left to right, the first exception ends it. *)
Fixpoint traverse {A B} (f : A -> result B) (xs : list A) : result (list B) :=
  match xs with
  | [] => Ok []
  | x :: xs' =>
      bind (f x) (fun y => bind (traverse f xs') (fun ys => Ok (y :: ys)))
  end.

(** *** str *)

Definition chr (n : nat) : ascii := ascii_of_nat n.

(** [str.isspace] on one code point below 256. *)
Definition is_space (c : ascii) : bool :=
  let n := N_of_ascii c in
  (((9 <=? n) && (n <=? 13)) || ((28 <=? n) && (n <=? 32))
   || (n =? 133) || (n =? 160))%N.

(** [s.split(sep)] for a one-character separator. *)
Fixpoint split (sep : ascii) (s : string) : list string :=
  match s with
  | EmptyString => [EmptyString]
  | String c s' =>
      if Ascii.eqb c sep then EmptyString :: split sep s'
      else match split sep s' with
           | [] => [String c EmptyString]
           | tok :: toks => String c tok :: toks
           end
  end.

Section Strip.
(** The characters that are taken off. *)
Variable space : ascii -> bool.

Fixpoint lstrip_by (s : string) : string :=
  match s with
  | EmptyString => EmptyString
  | String c s' => if space c then lstrip_by s' else s
  end.

Fixpoint rstrip_by (s : string) : string :=
  match s with
  | EmptyString => EmptyString
  | String c s' =>
      match rstrip_by s' with
      | EmptyString => if space c then EmptyString else String c EmptyString
      | t => String c t
      end
  end.

Definition strip_by (s : string) : string := rstrip_by (lstrip_by s).

End Strip.

(** [s.strip()]: whitespace is what [str.isspace] accepts. *)
Definition strip (s : string) : string := strip_by is_space s.

(** [s.startswith(p)] *)
Definition startswith (s p : string) : bool := String.prefix p s.

(** [p in s] for strings. *)
Fixpoint contains (p s : string) : bool :=
  String.prefix p s ||
  match s with
  | EmptyString => false
  | String _ s' => contains p s'
  end.

(** [sep.join(xs)] *)
Fixpoint join (sep : string) (xs : list string) : string :=
  match xs with
  | [] => EmptyString
  | [x] => x
  | x :: xs' => x ++ sep ++ join sep xs'
  end.

(** *** int *)

Definition digit (c : ascii) : option Z :=
  let n := Z.of_N (N_of_ascii c) in
  if (48 <=? n) && (n <=? 57) then Some (n - 48) else None.

(** The digits after a first digit; an underscore must stand between two
    digits. *)
Fixpoint digits_from (acc : Z) (s : string) : option Z :=
  match s with
  | EmptyString => Some acc
  | String c s' =>
      if Ascii.eqb c "_"%char then
        match s' with
        | EmptyString => None
        | String d s'' =>
            match digit d with
            | Some v => digits_from (acc * 10 + v) s''
            | None => None
            end
        end
      else
        match digit c with
        | Some v => digits_from (acc * 10 + v) s'
        | None => None
        end
  end.

Definition unsigned_int (s : string) : option Z :=
  match s with
  | EmptyString => None
  | String c s' =>
      match digit c with
      | Some v => digits_from v s'
      | None => None
      end
  end.

(** The whitespace [int] skips around a numeral: tab, line feed,
    vertical tab, form feed, carriage return and space (C's [isspace]),
    and the spaces above 127, which it first turns into a space (below
    256: next line and no-break space).  The separators 28 to 31, which
    [str.isspace] accepts, are not skipped. *)
Definition is_int_space (c : ascii) : bool :=
  let n := N_of_ascii c in
  (((9 <=? n) && (n <=? 13)) || (n =? 32) || (n =? 133) || (n =? 160))%N.

(** [int(s)] in base 10: surrounding whitespace, one optional sign,
    decimal digits with single underscores between them. *)
Definition int (s : string) : result Z :=
  let body :=
    match strip_by is_int_space s with
    | String "-"%char t => option_map Z.opp (unsigned_int t)
    | String "+"%char t => unsigned_int t
    | t => unsigned_int t
    end in
  match body with
  | Some z => Ok z
  | None => Raise ValueError
  end.

(** *** float *)

Definition float_of_Z (z : Z) : float :=
  SF2Prim (binary_normalize prec emax z 0 false).

(** [float(n)] for an int: the nearest binary64, [OverflowError] when
    that is not finite. *)
Definition pyfloat (z : Z) : result float :=
  let f := float_of_Z z in
  if PrimFloat.is_infinity f then Raise OverflowError else Ok f.

(** *** dict / OrderedDict: insertion-ordered, a key keeps the position
    of its first insertion. *)

Section Dict.
Context {K V : Type}.
Variable eqb : K -> K -> bool.

Fixpoint dict_get (k : K) (d : list (K * V)) : option V :=
  match d with
  | [] => None
  | (k', v) :: d' => if eqb k k' then Some v else dict_get k d'
  end.

(** [d[k] = v] *)
Fixpoint dict_set (k : K) (v : V) (d : list (K * V)) : list (K * V) :=
  match d with
  | [] => [(k, v)]
  | (k', v') :: d' =>
      if eqb k k' then (k', v) :: d' else (k', v') :: dict_set k v d'
  end.

Definition dict_keys (d : list (K * V)) : list K := map fst d.
End Dict.

(** *** More of str, and os.path *)

(** [s.endswith(p)] *)
Fixpoint endswith (s p : string) : bool :=
  String.eqb s p ||
  match s with
  | EmptyString => false
  | String _ s' => endswith s' p
  end.

(** [os.path.join(a, b)] of posixpath, for two components. *)
Definition path_join (a b : string) : string :=
  if startswith b "/" then b
  else if String.eqb a EmptyString || endswith a "/" then a ++ b
  else a ++ "/" ++ b.

End Py.

(* ================================================================= *)
(** ** The [csv] module: [csv.reader] with the default (excel) dialect
    and [csv.DictReader], as the parser uses them.

    The reader is CPython's state machine (Modules/_csv.c) for delimiter
    [,], quote character 34, doubled quotes, no escape character,
    non-strict.  It is run over the whole remaining input at once; the
    records come out in the order [next] would deliver them, and an
    error ends the stream at the record where [next] would raise. *)

Module Csv.
Import Py.

Inductive state : Type :=
| START_RECORD | START_FIELD | IN_FIELD
| IN_QUOTED_FIELD | QUOTE_IN_QUOTED_FIELD | EAT_CRNL.

Definition state_eqb (a b : state) : bool :=
  match a, b with
  | START_RECORD, START_RECORD | START_FIELD, START_FIELD
  | IN_FIELD, IN_FIELD | IN_QUOTED_FIELD, IN_QUOTED_FIELD
  | QUOTE_IN_QUOTED_FIELD, QUOTE_IN_QUOTED_FIELD | EAT_CRNL, EAT_CRNL => true
  | _, _ => false
  end.

(** [fields] and [field] are kept reversed; [field_len] counts [field]. *)
Record parser : Type := mkParser {
  st : state;
  fields : list string;
  field : list ascii;
  field_len : N
}.

Definition parse_reset : parser := mkParser START_RECORD [] [] 0%N.

Definition field_limit : N := 131072.
Definition quotechar : ascii := chr 34.
Definition delimiter : ascii := ","%char.
Definition LF : ascii := chr 10.
Definition CR : ascii := chr 13.

Definition string_of_rev (cs : list ascii) : string :=
  fold_left (fun acc c => String c acc) cs EmptyString.

Definition parse_save_field (p : parser) : parser :=
  mkParser (st p) (string_of_rev (field p) :: fields p) [] 0%N.

Definition parse_add_char (p : parser) (c : ascii) : string + parser :=
  if (field_limit <=? field_len p)%N
  then inl "field larger than field limit (131072)"
  else inr (mkParser (st p) (fields p) (c :: field p) (field_len p + 1)%N).

Definition set_state (s : state) (p : parser) : parser :=
  mkParser s (fields p) (field p) (field_len p).

Definition is_eol (c : option ascii) : bool :=
  match c with
  | None => true
  | Some a => Ascii.eqb a LF || Ascii.eqb a CR
  end.

Definition after_eol (c : option ascii) : state :=
  match c with None => START_RECORD | Some _ => EAT_CRNL end.

Definition is_char (c : option ascii) (a : ascii) : bool :=
  match c with Some b => Ascii.eqb a b | None => false end.

Definition add_opt (p : parser) (c : option ascii) : string + parser :=
  match c with
  | Some a => parse_add_char p a
  | None => inr p
  end.

Definition then_state (s : state) (r : string + parser) : string + parser :=
  match r with
  | inl m => inl m
  | inr p => inr (set_state s p)
  end.

Definition process_start_field (p : parser) (c : option ascii)
  : string + parser :=
  if is_eol c then inr (set_state (after_eol c) (parse_save_field p))
  else if is_char c quotechar then inr (set_state IN_QUOTED_FIELD p)
  else if is_char c delimiter then inr (parse_save_field p)
  else then_state IN_FIELD (add_opt p c).

(** [parse_process_char]; [None] is the end-of-line call the reader makes
    after the last character of each line. *)
Definition parse_process_char (p : parser) (c : option ascii)
  : string + parser :=
  match st p with
  | START_RECORD =>
      match c with
      | None => inr p
      | Some a =>
          if Ascii.eqb a LF || Ascii.eqb a CR then inr (set_state EAT_CRNL p)
          else process_start_field (set_state START_FIELD p) c
      end
  | START_FIELD => process_start_field p c
  | IN_FIELD =>
      if is_eol c then inr (set_state (after_eol c) (parse_save_field p))
      else if is_char c delimiter
           then inr (set_state START_FIELD (parse_save_field p))
      else add_opt p c
  | IN_QUOTED_FIELD =>
      match c with
      | None => inr p
      | Some _ =>
          if is_char c quotechar then inr (set_state QUOTE_IN_QUOTED_FIELD p)
          else add_opt p c
      end
  | QUOTE_IN_QUOTED_FIELD =>
      if is_char c quotechar then then_state IN_QUOTED_FIELD (add_opt p c)
      else if is_char c delimiter
           then inr (set_state START_FIELD (parse_save_field p))
      else if is_eol c
           then inr (set_state (after_eol c) (parse_save_field p))
      else then_state IN_FIELD (add_opt p c)
  | EAT_CRNL =>
      match c with
      | None => inr (set_state START_RECORD p)
      | Some a =>
          if Ascii.eqb a LF || Ascii.eqb a CR then inr p
          else inl "new-line character seen in unquoted field - do you need to open the file in universal-newline mode?"
      end
  end.

(** One line: every character, then the end-of-line call. *)
Fixpoint process_line (p : parser) (line : string) : string + parser :=
  match line with
  | EmptyString => parse_process_char p None
  | String c rest =>
      if Ascii.eqb c Ascii.zero then inl "line contains NUL"
      else match parse_process_char p (Some c) with
           | inl m => inl m
           | inr p' => process_line p' rest
           end
  end.

(** What successive [next(reader)] calls deliver. *)
Inductive stream (A : Type) : Type :=
| Done                                  (* StopIteration *)
| Failed (msg : string)                 (* csv.Error *)
| Item (a : A) (rest : stream A).
Arguments Done {A}.
Arguments Failed {A} msg.
Arguments Item {A} a rest.

Fixpoint read_from (p : parser) (lines : list string) : stream (list string) :=
  match lines with
  | [] =>
      if negb (field_len p =? 0)%N || state_eqb (st p) IN_QUOTED_FIELD
      then Item (rev (fields (parse_save_field p))) Done
      else Done
  | line :: lines' =>
      match process_line p line with
      | inl m => Failed m
      | inr p' =>
          if state_eqb (st p') START_RECORD
          then Item (rev (fields p')) (read_from parse_reset lines')
          else read_from p' lines'
      end
  end.

(** [csv.reader(lines)] *)
Definition reader (lines : list string) : stream (list string) :=
  read_from parse_reset lines.

(** A row of a [DictReader]: column name to cell; [None] is the
    [restval] a short record gets for its missing columns.  The list a
    long record stores under the key [None] is left out: no string key
    reaches it. *)
Definition row : Type := list (string * option string).

Fixpoint zip_into (d : row) (names cells : list string) : row :=
  match names, cells with
  | n :: names', c :: cells' =>
      zip_into (dict_set String.eqb n (Some c) d) names' cells'
  | _, _ => d
  end.

Definition make_row (fieldnames cells : list string) : row :=
  let d := zip_into [] fieldnames cells in
  fold_left (fun d k => dict_set String.eqb k None d)
            (skipn (List.length cells) fieldnames) d.

(** The rows after the field names; empty records are passed over. *)
Fixpoint dict_rows (fieldnames : list string) (recs : stream (list string))
  : stream row :=
  match recs with
  | Done => Done
  | Failed m => Failed m
  | Item [] rest => dict_rows fieldnames rest
  | Item cells rest => Item (make_row fieldnames cells) (dict_rows fieldnames rest)
  end.

(** [csv.DictReader(lines)]: the first record, whatever it is, gives the
    field names. *)
Definition DictReader (lines : list string) : stream row :=
  match reader lines with
  | Done => Done
  | Failed m => Failed m
  | Item fieldnames rest => dict_rows fieldnames rest
  end.

(** [next(it)] *)
Definition next {A} (s : stream A) : result (A * stream A) :=
  match s with
  | Done => Raise StopIteration
  | Failed m => Raise (CsvError m)
  | Item a rest => Ok (a, rest)
  end.

End Csv.

(* ================================================================= *)
(** ** [radvisor/parser.py] *)

Module Radvisor.
Import Py Csv.

Notation "x <- m ;; k" := (bind m (fun x => k))
  (at level 61, m at next level, right associativity).
Notation "' p <- m ;; k" := (bind m (fun p => k))
  (at level 61, p pattern, m at next level, right associativity).

Definition nl : string := String (chr 10) EmptyString.

(** [in_t(val)] *)
Definition in_t (val : option string) : result Z :=
  match val with
  | None => Ok 0
  | Some EmptyString => Ok 0
  | Some s => int s
  end.

(** [row[key]] on a [DictReader] row. *)
Definition getitem (r : row) (key : string) : result (option string) :=
  match dict_get String.eqb key r with
  | Some v => Ok v
  | None => Raise (KeyError key)
  end.

(** [in_t(row[key])] *)
Definition in_t_col (r : row) (key : string) : result Z :=
  v <- getitem r key ;; in_t v.

(** [val.split(sep)]: [None] has no [split]. *)
Definition split_attr (val : option string) (sep : ascii) : result (list string) :=
  match val with
  | Some s => Ok (split sep s)
  | None => Raise AttributeError
  end.

(** What a class of the module is called with: a string or a row. *)
Inductive arg : Type :=
| Str (s : string)
| Row (r : row).

(** Instances of the class defined first under the name [BlkioEntry]
    (lines 34-46). *)
Record BlkioEntry1 : Type := mkBlkioEntry1 {
  major : Z;
  minor : Z;
  value : Z;
  op : string
}.

(** Instances of the class defined second under the name [BlkioEntry]
    (lines 49-63); it reads the cpu columns of a row. *)
Record BlkioEntry2 : Type := mkBlkioEntry2 {
  total : Z;
  system_usage : Z;
  user_usage : Z;
  percpu : list Z;
  system_stat : Z;
  user_stat : Z;
  throttling_periods : Z;
  throttled_periods : Z;
  throttled_time : Z
}.

Inductive object : Type :=
| Obj1 (e : BlkioEntry1)
| Obj2 (c : BlkioEntry2).

(** [BlkioEntry.__init__(self, raw)], first definition. *)
Definition BlkioEntry1_init (raw : arg) : result BlkioEntry1 :=
  match raw with
  | Row _ => Raise AttributeError                 (* a dict has no split *)
  | Str s =>
      match split " " s with
      | [majmin; op; value] =>
          match split ":" majmin with
          | [major; minor] =>
              major' <- in_t (Some major) ;;
              minor' <- in_t (Some minor) ;;
              value' <- in_t (Some value) ;;
              Ok (mkBlkioEntry1 major' minor' value' op)
          | _ => Raise ValueError                 (* unpacking *)
          end
      | _ => Raise ValueError                     (* unpacking *)
      end
  end.

(** [BlkioEntry.__init__(self, row)], second definition. *)
Definition BlkioEntry2_init (row : arg) : result BlkioEntry2 :=
  match row with
  | Str _ => Raise TypeError                      (* str indexed by a str *)
  | Row r =>
      total <- in_t_col r "cpu.usage.total" ;;
      system_usage <- in_t_col r "cpu.usage.system" ;;
      user_usage <- in_t_col r "cpu.usage.user" ;;
      cell <- getitem r "cpu.usage.percpu" ;;
      cpus <- split_attr cell " " ;;
      percpu <- traverse (fun cpu => in_t (Some (strip cpu))) cpus ;;
      system_stat <- in_t_col r "cpu.stat.system" ;;
      user_stat <- in_t_col r "cpu.stat.user" ;;
      throttling_periods <- in_t_col r "cpu.throttling.periods" ;;
      throttled_periods <- in_t_col r "cpu.throttling.throttled.count" ;;
      throttled_time <- in_t_col r "cpu.throttling.throttled.time" ;;
      Ok (mkBlkioEntry2 total system_usage user_usage percpu system_stat
            user_stat throttling_periods throttled_periods throttled_time)
  end.

(** The two classes that were given the name [BlkioEntry]. *)
Inductive class : Type :=
| BlkioEntry_first
| BlkioEntry_second.

Definition instantiate (c : class) (a : arg) : result object :=
  match c with
  | BlkioEntry_first => e <- BlkioEntry1_init a ;; Ok (Obj1 e)
  | BlkioEntry_second => e <- BlkioEntry2_init a ;; Ok (Obj2 e)
  end.

(** The module's global names that are resolved when a call is made. *)
Record Globals : Type := mkGlobals {
  g_BlkioEntry : option class;
  g_CpuUsage : option class
}.

(** The namespace after [parser.py] has run: the second [class
    BlkioEntry] statement rebinds the name, and nothing binds
    [CpuUsage]. *)
Definition module_globals : Globals :=
  mkGlobals (Some BlkioEntry_second) None.

(** The namespace in which each class carries the name its callers use:
    [parse_blkio] builds the first class from a string, [LogEntry] builds
    the second from a row. *)
Definition renamed_globals : Globals :=
  mkGlobals (Some BlkioEntry_first) (Some BlkioEntry_second).

(** Calling a global name. *)
Definition call (name : string) (binding : option class) (a : arg)
  : result object :=
  match binding with
  | None => Raise (NameError name)
  | Some c => instantiate c a
  end.

Record Memory : Type := mkMemory {
  usage_current : Z; max_usage : Z; hard_limit : Z; soft_limit : Z;
  failcnt : Z; mem_limit : Z; swap_limit : Z; cache : Z; rss_all : Z;
  rss_huge : Z; mapped : Z; swap : Z; paged_in : Z; paged_out : Z;
  fault_total : Z; fault_major : Z; anon_inactive : Z; anon_active : Z;
  file_inactive : Z; file_active : Z; unevictable : Z
}.

(** [Memory.__init__(self, row)] *)
Definition Memory_init (r : row) : result Memory :=
  usage_current <- in_t_col r "memory.usage.current" ;;
  max_usage <- in_t_col r "memory.usage.max" ;;
  hard_limit <- in_t_col r "memory.limit.hard" ;;
  soft_limit <- in_t_col r "memory.limit.soft" ;;
  failcnt <- in_t_col r "memory.failcnt" ;;
  mem_limit <- in_t_col r "memory.hierarchical_limit.memory" ;;
  swap_limit <- in_t_col r "memory.hierarchical_limit.memoryswap" ;;
  cache <- in_t_col r "memory.cache" ;;
  rss_all <- in_t_col r "memory.rss.all" ;;
  rss_huge <- in_t_col r "memory.rss.huge" ;;
  mapped <- in_t_col r "memory.mapped" ;;
  swap <- in_t_col r "memory.swap" ;;
  paged_in <- in_t_col r "memory.paged.in" ;;
  paged_out <- in_t_col r "memory.paged.out" ;;
  fault_total <- in_t_col r "memory.fault.total" ;;
  fault_major <- in_t_col r "memory.fault.major" ;;
  anon_inactive <- in_t_col r "memory.anon.inactive" ;;
  anon_active <- in_t_col r "memory.anon.active" ;;
  file_inactive <- in_t_col r "memory.file.inactive" ;;
  file_active <- in_t_col r "memory.file.active" ;;
  unevictable <- in_t_col r "memory.unevictable" ;;
  Ok (mkMemory usage_current max_usage hard_limit soft_limit failcnt
        mem_limit swap_limit cache rss_all rss_huge mapped swap paged_in
        paged_out fault_total fault_major anon_inactive anon_active
        file_inactive file_active unevictable).

(** The condition of the comprehension in [parse_blkio]:
    [len(entry.split(" ")) == 3 and "Total" not in entry]. *)
Definition blkio_keep (entry : string) : bool :=
  (List.length (split " " entry) =? 3)%nat && negb (contains "Total" entry).

Record Blkio : Type := mkBlkio {
  service_bytes : list object;
  serviced : list object;
  service_time : list object;
  queued : list object;
  wait_time : list object;
  merged : list object;
  time : list object;
  sectors : list object
}.

Record PidsStats : Type := mkPidsStats {
  pids_current : Z;
  pids_max : Z
}.

(** [row[key] == "max"] *)
Definition is_max (v : option string) : bool :=
  match v with
  | Some s => String.eqb s "max"
  | None => false
  end.

(** [PidsStats.__init__(self, row)] *)
Definition PidsStats_init (r : row) : result PidsStats :=
  current <- in_t_col r "pids.current" ;;
  v <- getitem r "pids.max" ;;
  max <- (if is_max v then Ok 0 else in_t_col r "pids.max") ;;
  Ok (mkPidsStats current max).

(** A [LogEntry]; [pre] is the entry found under the preceding read. *)
#[warnings="-register-all"] Inductive LogEntry : Type := mkLogEntry {
  read : Z;
  cpu : object;
  memory : Memory;
  pids : PidsStats;
  blkio : Blkio;
  pre : option LogEntry
}.

(** [entries]: an [OrderedDict] from read timestamp to [LogEntry]. *)
Definition OrderedDict : Type := list (Z * LogEntry).

(** The pre-read lookup that ends [LogEntry.__init__]. *)
Definition resolve_pre (preread : option Z) (entries : option OrderedDict)
  : option LogEntry :=
  match entries, preread with
  | Some d, Some k => dict_get Z.eqb k d
  | _, _ => None
  end.

(** [print] calls, in order: the text each was given. *)
Definition stdout : Type := list string.

Section WithGlobals.
Variable G : Globals.

(** [parse_blkio(raw)] *)
Definition parse_blkio (raw : option string) : result (list object) :=
  parts <- split_attr raw "," ;;
  let split := map strip parts in
  traverse (fun entry => call "BlkioEntry" (g_BlkioEntry G) (Str entry))
           (filter blkio_keep split).

(** [parse_blkio(row[key])] *)
Definition parse_blkio_col (r : row) (key : string) : result (list object) :=
  v <- getitem r key ;; parse_blkio v.

(** [Blkio.__init__(self, row)] *)
Definition Blkio_init (r : row) : result Blkio :=
  service_bytes <- parse_blkio_col r "blkio.service.bytes" ;;
  serviced <- parse_blkio_col r "blkio.service.ios" ;;
  service_time <- parse_blkio_col r "blkio.service.time" ;;
  queued <- parse_blkio_col r "blkio.queued" ;;
  wait_time <- parse_blkio_col r "blkio.wait" ;;
  merged <- parse_blkio_col r "blkio.merged" ;;
  time <- parse_blkio_col r "blkio.time" ;;
  sectors <- parse_blkio_col r "blkio.sectors" ;;
  Ok (mkBlkio service_bytes serviced service_time queued wait_time merged
        time sectors).

(** The part of [LogEntry.__init__] that reads the row. *)
Definition LogEntry_fields (r : row)
  : result (Z * object * Memory * PidsStats * Blkio) :=
  read <- in_t_col r "read" ;;
  cpu <- call "CpuUsage" (g_CpuUsage G) (Row r) ;;
  memory <- Memory_init r ;;
  pids <- PidsStats_init r ;;
  blkio <- Blkio_init r ;;
  Ok (read, cpu, memory, pids, blkio).

(** [LogEntry.__init__(self, row, preread, entries)] *)
Definition LogEntry_init (r : row) (preread : option Z)
           (entries : option OrderedDict) : result LogEntry :=
  '(read, cpu, memory, pids, blkio) <- LogEntry_fields r ;;
  Ok (mkLogEntry read cpu memory pids blkio (resolve_pre preread entries)).

(** The row loop of [load_file] inside its [try]: only [csv.Error] is
    handled, and the handler stands after the loop. *)
Fixpoint read_rows (rows : stream row) (entries : OrderedDict)
         (preread : option Z) : stdout * result OrderedDict :=
  let handler (msg : string) :=
    ([msg; "An error ocurred. continuing..." ++ nl], Ok entries) in
  match rows with
  | Done => ([], Ok entries)
  | Failed msg => handler msg
  | Item r rest =>
      match LogEntry_init r preread (Some entries) with
      | Ok entry =>
          read_rows rest (dict_set Z.eqb (read entry) entry entries)
                    (Some (read entry))
      | Raise (CsvError msg) => handler msg
      | Raise e => ([], Raise e)
      end
  end.

(** [while not file_iter.peek().startswith("---"): ...] and the
    [next(file_iter)] after it: the yaml lines and the lines left. *)
Fixpoint read_yaml_lines (lines : list string)
  : result (list string * list string) :=
  match lines with
  | [] => Raise StopIteration
  | line :: rest =>
      if startswith line "---" then Ok ([], rest)
      else '(yaml_lines, tabular) <- read_yaml_lines rest ;;
           Ok (line :: yaml_lines, tabular)
  end.

Section WithYaml.
Variable Metadata : Type.
(** [Loader(yaml_str).get_data()] *)
Variable get_data : string -> result Metadata.

(** [load_file] from the yaml text on: decoding it, the [DictReader],
    the extra [next], the row loop. *)
Definition load_tabular (yaml_str : string) (tabular : list string)
  : stdout * result (OrderedDict * Metadata) :=
  match get_data yaml_str with
  | Raise e => ([], Raise e)
  | Ok metadata =>
      match next (DictReader tabular) with
      | Raise e => ([], Raise e)
      | Ok (_, rows) =>
          match read_rows rows [] None with
          | (out, Ok entries) => (out, Ok (entries, metadata))
          | (out, Raise e) => (out, Raise e)
          end
      end
  end.

(** The body of [load_file] on the lines of the opened file. *)
Definition load_lines (csvfile : list string)
  : stdout * result (OrderedDict * Metadata) :=
  match csvfile with
  | [] => ([], Raise StopIteration)               (* next(csvfile) *)
  | _ :: lines =>
      match read_yaml_lines lines with
      | Raise e => ([], Raise e)
      | Ok (yaml_lines, tabular) => load_tabular (join nl yaml_lines) tabular
      end
  end.

(** The files that can be opened, each as the lines iteration yields. *)
Variable fs : string -> option (list string).
(** [os.path.relpath] *)
Variable relpath : string -> result string.

(** [load_file(filename)] *)
Definition load_file (filename : string)
  : stdout * result (OrderedDict * Metadata) :=
  match fs filename with
  | None => ([], Raise FileNotFoundError)
  | Some csvfile => load_lines csvfile
  end.

(** The loop of [parse_all] with [parsed] as it stands. *)
Fixpoint parse_files (parsed : list (string * (OrderedDict * Metadata)))
         (files : list string)
  : stdout * result (list (string * (OrderedDict * Metadata))) :=
  match files with
  | [] => ([], Ok parsed)
  | file :: files' =>
      match relpath file with
      | Raise e => ([], Raise e)
      | Ok relative =>
          let announce := "Parsing log data from " ++ relative ++ "... " in
          match load_file file with
          | (out, Raise e) => (announce :: out, Raise e)
          | (out, Ok log_data) =>
              let '(out', r) :=
                parse_files (dict_set String.eqb file log_data parsed) files' in
              (announce :: out ++ "done" :: out', r)
          end
      end
  end.

(** [parse_all(files)] *)
Definition parse_all (files : list string)
  : stdout * result (list (string * (OrderedDict * Metadata))) :=
  parse_files [] files.

End WithYaml.
End WithGlobals.
(** *** [DataClass] *)

(** How a call of [__getattr__] ends: with a value ([None] when the
    handler's [pass] is reached), or with an exception. *)
Inductive outcome (V : Type) : Type :=
| Returns (v : option V)
| RaisesAttributeError
| RaisesRecursionError.
Arguments Returns {V} v.
Arguments RaisesAttributeError {V}.
Arguments RaisesRecursionError {V}.

Section DataClass.
Context {V : Type}.
(** What normal attribute lookup finds on the object (its own
    attributes and those of its class). *)
Variable found : string -> option V.

(** [DataClass.__getattr__(self, attr)], which Python calls when normal
    lookup of [attr] fails; [frames] is the number of Python frames left
    before the recursion limit.  The [getattr(self, f"_{attr}")] in its
    body is a normal lookup of the longer name, which calls
    [__getattr__] again when that fails. *)
Fixpoint DataClass_getattr (frames : nat) (attr : string) : outcome V :=
  match frames with
  | O => RaisesRecursionError
  | S frames' =>
      let name := String "_" attr in
      let inner :=
        match found name with
        | Some v => Returns (Some v)
        | None => DataClass_getattr frames' name
        end in
      match inner with
      | RaisesAttributeError => Returns None
      | r => r
      end
  end.

(** [self.attr] *)
Definition attribute (frames : nat) (attr : string) : outcome V :=
  match found attr with
  | Some v => Returns (Some v)
  | None => DataClass_getattr frames attr
  end.

End DataClass.

(** *** File discovery *)

Section Discovery.
(** [os.listdir] *)
Variable listdir : string -> result (list string).

(** [get_all_files(dir, ext)] *)
Definition get_all_files (dir ext : string) : result (list string) :=
  let extension_suffix := "." ++ ext in
  names <- listdir dir ;;
  Ok (map (path_join dir)
          (filter (fun file => endswith file extension_suffix) names)).

End Discovery.

(** *** Interval analysis *)

Local Open Scope float_scope.

(** [find_deltas(arr)]: [[j-i for i, j in zip(arr[:-1], arr[1:])]] *)
Definition find_deltas (arr : list float) : list float :=
  map (fun '(i, j) => j - i) (combine (removelast arr) (tl arr)).

(** [float(timestamp) / 1E6] *)
Definition to_ms (timestamp : Z) : result float :=
  f <- pyfloat timestamp ;; Ok (f / 1e6).

(** [get_ts_deltas(entries)], on the timestamps iterating [entries]
    yields (the keys, for a dict). *)
Definition get_ts_deltas (timestamps : list Z) : result (list float) :=
  ms <- traverse to_ms timestamps ;; Ok (find_deltas ms).

(** Ascending order with NaN last, as numpy sorts. *)
Definition nan_last_leb (a b : float) : bool :=
  is_nan b || (negb (is_nan a) && (a <=? b)).

Fixpoint insert_sorted (x : float) (l : list float) : list float :=
  match l with
  | [] => [x]
  | y :: l' => if nan_last_leb x y then x :: l else y :: insert_sorted x l'
  end.

Definition sort_floats (l : list float) : list float :=
  fold_right insert_sorted [] l.

(** [numpy.floor] of a finite float, as an integer. *)
Definition float_floor (f : float) : Z :=
  match Prim2SF f with
  | S754_finite s m e =>
      let mz := if s then Zneg m else Zpos m in
      if (0 <=? e)%Z then (mz * 2 ^ e)%Z else (mz / 2 ^ (- e))%Z
  | _ => 0%Z
  end.

(** numpy's interpolation between two neighbours. *)
Definition lerp (a b t : float) : float :=
  let diff_b_a := b - a in
  if 0.5 <=? t then b - diff_b_a * (1 - t) else a + diff_b_a * t.

(** [arr[i]] with Python's negative indices, on a list known non-empty. *)
Definition item (arr : list float) (i : Z) : float :=
  let n := Z.of_nat (List.length arr) in
  nth (Z.to_nat (if (i <? 0)%Z then n + i else i)%Z) arr nan.

(** Modelled from the spec: [numpy.percentile(arr, q)], a library
    function outside the repository.  The spec names its method (linear
    interpolation); numpy's documentation gives the rule followed here
    and in [sort_floats], [float_floor], [lerp] and [item]: the sorted
    array is read at the virtual index [(n - 1) * q / 100],
    interpolating between its two neighbours; an array holding a NaN
    gives NaN; an empty array has no element to read ([IndexError]). *)
Definition percentile (arr : list float) (q : float) : result float :=
  match sort_floats arr with
  | [] => Raise IndexError
  | sorted =>
      let n := Z.of_nat (List.length sorted) in
      let virtual_index := float_of_Z (n - 1) * (q / 100) in
      let above := float_of_Z (n - 1) <=? virtual_index in
      let below := virtual_index <? 0 in
      let previous_index :=
        if is_nan virtual_index then (-1)%Z
        else if below then 0%Z
        else if above then (-1)%Z
        else float_floor virtual_index in
      let next_index :=
        if is_nan virtual_index then (-1)%Z
        else if below then 0%Z
        else if above then (-1)%Z
        else (float_floor virtual_index + 1)%Z in
      let gamma := virtual_index - float_of_Z previous_index in
      if is_nan (item sorted (-1)) then Ok nan
      else Ok (lerp (item sorted previous_index) (item sorted next_index) gamma)
  end.

(** The condition of the comprehension in [remove_outliers]. *)
Definition within (q25 q75 limit a : float) : bool :=
  (q25 - limit <=? a) && (a <=? q75 + limit).

(** [remove_outliers(arr, z)] *)
Definition remove_outliers (arr : list float) (z : float) : result (list float) :=
  q25 <- percentile arr 25 ;;
  q75 <- percentile arr 75 ;;
  let iqr := q75 - q25 in
  let limit := z * iqr in
  Ok (filter (within q25 q75 limit) arr).

(** The default of the parameter [z]. *)
Definition z_default : float := 1.5.

(** The statistics table. *)
Record IntervalStats : Type := mkIntervalStats {
  stat_count : Z;
  stat_mean : float;
  stat_std : float;
  stat_min : float;
  stat_q25 : float;
  stat_q50 : float;
  stat_q75 : float;
  stat_max : float
}.

Definition fsum (l : list float) : float := fold_left add l 0.

Definition quartile (arr : list float) (q : float) : float :=
  match percentile arr q with
  | Ok v => v
  | Raise _ => nan
  end.

(** Modelled from the spec: [DataFrame.describe] on the one column of
    deltas; the table is made by pandas, outside the repository.  The
    spec lists its fields (count, mean, standard deviation, min, the
    quartiles, max) and asks that an empty array gives count 0 and every
    other field undefined (NaN).  Mean is the sum over the count, the
    deviation is the sample deviation (undefined below two values), min
    and max are undefined without a value. *)
Definition describe (deltas : list float) : IntervalStats :=
  let n := Z.of_nat (List.length deltas) in
  let mean := fsum deltas / float_of_Z n in
  let squares := map (fun x => (x - mean) * (x - mean)) deltas in
  let sorted := sort_floats deltas in
  mkIntervalStats n mean
    (if (n <=? 1)%Z then nan else sqrt (fsum squares / float_of_Z (n - 1)))
    (match sorted with [] => nan | _ => item sorted 0 end)
    (quartile deltas 25) (quartile deltas 50) (quartile deltas 75)
    (match sorted with [] => nan | _ => item sorted (-1) end).

(** [analyze_timestamps(entries)]: the table it prints. *)
Definition analyze_timestamps (entries : OrderedDict) : result IntervalStats :=
  deltas <- get_ts_deltas (dict_keys entries) ;;
  Ok (describe deltas).

(** *** The batch run *)

(** What a run prints: text, or a statistics table. *)
Inductive printed : Type :=
| Text (s : string)
| Table (t : IntervalStats).

Section Main.
Variable G : Globals.
Variable Metadata : Type.
Variable get_data : string -> result Metadata.
Variable fs : string -> option (list string).
Variable relpath : string -> result string.
Variable listdir : string -> result (list string).
(** [os.path.abspath] and [os.getcwd] *)
Variable abspath : string -> result string.
Variable getcwd : result string.

(** The loop of [main] over [data.items()]. *)
Fixpoint analyze_all (data : list (string * (OrderedDict * Metadata)))
  : list printed * result unit :=
  match data with
  | [] => ([], Ok tt)
  | (_, (entries, _)) :: data' =>
      match analyze_timestamps entries with
      | Raise e => ([], Raise e)
      | Ok table =>
          let '(out, r) := analyze_all data' in (Table table :: out, r)
      end
  end.

(** [main(root)] *)
Definition main (root : option string) : list printed * result unit :=
  let resolved_root :=
    match root with
    | Some path => abspath path
    | None => getcwd
    end in
  match resolved_root with
  | Raise e => ([], Raise e)
  | Ok dir =>
      match get_all_files listdir dir "log" with
      | Raise e => ([], Raise e)
      | Ok files =>
          match parse_all G Metadata get_data fs relpath files with
          | (out, Raise e) => (map Text out, Raise e)
          | (out, Ok data) =>
              let '(tables, r) := analyze_all data in
              ((map Text out ++ tables)%list, r)
          end
      end
  end.

End Main.

End Radvisor.

(* ================================================================= *)
(** ** Vocabulary of the statements, and sample inputs *)

Module Samples.
Import Py Csv Radvisor.

(** A stream that delivers [items] and then goes on as [s]. *)
Fixpoint prepend {A} (items : list A) (s : stream A) : stream A :=
  match items with
  | [] => s
  | a :: items' => Item a (prepend items' s)
  end.

(** The value [in_t(row["read"])] has when it returns. *)
Definition row_read (r : row) : Z :=
  match in_t_col r "read" with
  | Ok n => n
  | Raise _ => 0
  end.

(** The row loop on rows that all decode: the entries and the pre-read
    pointer it arrives at. *)
Fixpoint absorb (G : Globals) (rows : list row) (entries : OrderedDict)
         (preread : option Z) : OrderedDict * option Z :=
  match rows with
  | [] => (entries, preread)
  | r :: rows' =>
      match LogEntry_init G r preread (Some entries) with
      | Ok entry =>
          absorb G rows' (dict_set Z.eqb (read entry) entry entries)
                 (Some (read entry))
      | Raise _ => (entries, preread)
      end
  end.

(** A row that [LogEntry.__init__] decodes. *)
Definition decodes (G : Globals) (r : row) : Prop :=
  is_ok (LogEntry_fields G r) = true.

(** The float conversion of a timestamp does not overflow. *)
Definition representable (timestamp : Z) : Prop :=
  is_ok (pyfloat timestamp) = true.

(** A stand-in for the yaml loader in the examples: no document gives
    [None], any other text is kept as it is. *)
Definition text_get_data (yaml_str : string) : result (option string) :=
  match yaml_str with
  | EmptyString => Ok None
  | _ => Ok (Some yaml_str)
  end.

(** The recognized columns, in the order of the spec. *)
Definition columns : list string :=
  ["read"; "cpu.usage.total"; "cpu.usage.system"; "cpu.usage.user";
   "cpu.usage.percpu"; "cpu.stat.system"; "cpu.stat.user";
   "cpu.throttling.periods"; "cpu.throttling.throttled.count";
   "cpu.throttling.throttled.time";
   "memory.usage.current"; "memory.usage.max"; "memory.limit.hard";
   "memory.limit.soft"; "memory.failcnt"; "memory.hierarchical_limit.memory";
   "memory.hierarchical_limit.memoryswap"; "memory.cache"; "memory.rss.all";
   "memory.rss.huge"; "memory.mapped"; "memory.swap"; "memory.paged.in";
   "memory.paged.out"; "memory.fault.total"; "memory.fault.major";
   "memory.anon.inactive"; "memory.anon.active"; "memory.file.inactive";
   "memory.file.active"; "memory.unevictable";
   "blkio.service.bytes"; "blkio.service.ios"; "blkio.service.time";
   "blkio.queued"; "blkio.wait"; "blkio.merged"; "blkio.time";
   "blkio.sectors"; "pids.current"; "pids.max"].

Definition header_line : string := join "," columns ++ nl.

Definition quoted (cell : string) : string :=
  String quotechar cell ++ String quotechar EmptyString.

(** The cells of a data row: the read timestamp, the blkio.service.bytes
    cell and pids.current are given, the other cells are fixed. *)
Definition data_cells (read service_bytes pids_current : string) : list string :=
  ([read; "10"; "4"; "6"; "5 5"; "1"; "2"; "0"; "0"; "0"]
   ++ repeat "7" 21
   ++ [service_bytes] ++ repeat EmptyString 7
   ++ [pids_current; "max"])%list.

(** The line of the file for these cells; the blkio cell is quoted. *)
Definition data_line (read service_bytes pids_current : string) : string :=
  join "," (data_cells read (quoted service_bytes) pids_current) ++ nl.

(** The row the [DictReader] makes of that line. *)
Definition data_row (read service_bytes pids_current : string) : row :=
  make_row columns (data_cells read service_bytes pids_current).

Definition delimiter_line : string := "---" ++ nl.

(** Header, duplicated header and one data row. *)
Definition one_row_file : list string :=
  [delimiter_line; delimiter_line; header_line; header_line;
   data_line "100" "8:0 Read 5,8:0 Write 7,Total 12" "3"].

(** Three data rows, the third repeating the first row's timestamp. *)
Definition repeated_read_file : list string :=
  [delimiter_line; delimiter_line; header_line; header_line;
   data_line "5" "8:0 Read 5" "1";
   data_line "7" "8:0 Read 6" "2";
   data_line "5" "8:0 Read 7" "3"].

(** The first data row has text in the read column. *)
Definition bad_read_file : list string :=
  [delimiter_line; delimiter_line; header_line; header_line;
   data_line "abc" "8:0 Read 5" "1";
   data_line "200" "8:0 Read 6" "2"].

(** The column-header row and nothing after it. *)
Definition header_only_file : list string :=
  [delimiter_line; delimiter_line; header_line].

(** The column-header row, its duplicate, and no data row. *)
Definition no_rows_file : list string :=
  [delimiter_line; delimiter_line; header_line; header_line].

(** One delimiter line only. *)
Definition unterminated_file : list string :=
  [delimiter_line; "Version: 1" ++ nl].

(** The first line is not a delimiter. *)
Definition odd_first_line_file : list string :=
  ["not a delimiter" ++ nl; "Version: 1" ++ nl; delimiter_line; header_line;
   header_line].

Definition sample_fs (filename : string) : option (list string) :=
  if String.eqb filename "bad.log" then Some unterminated_file
  else if String.eqb filename "good.log" then Some no_rows_file
  else None.

Definition sample_relpath (file : string) : result string := Ok file.

(** A file that [parse_all] announces, loads and records. *)
Definition parses (G : Globals) (Metadata : Type)
           (get_data : string -> result Metadata)
           (fs : string -> option (list string))
           (relpath : string -> result string) (file : string) : Prop :=
  is_ok (relpath file) = true
  /\ is_ok (snd (load_file G Metadata get_data fs file)) = true.

End Samples.

(* ================================================================= *)
(** ** Vocabulary for the further properties *)

From Stdlib Require DecimalString DecimalPos FloatAxioms.

Module Words.
Import Py Csv Radvisor Samples.

(** The decimal numeral of an integer, as [str(n)] writes it. *)
Definition decimal (n : Z) : string :=
  DecimalString.NilZero.string_of_int (Z.to_int n).

(** Every character is whitespace. *)
Fixpoint blank (s : string) : bool :=
  match s with
  | EmptyString => true
  | String c s' => is_space c && blank s'
  end.

(** Every character satisfies [p]. *)
Fixpoint all_chars (p : ascii -> bool) (s : string) : bool :=
  match s with
  | EmptyString => true
  | String c s' => p c && all_chars p s'
  end.

(** Every character is whitespace that [int] skips. *)
Definition int_blank (s : string) : bool := all_chars is_int_space s.

(** [attr] with [k] underscores in front. *)
Fixpoint underscores (k : nat) (attr : string) : string :=
  match k with
  | O => attr
  | S k' => String "_" (underscores k' attr)
  end.

(** A call returns, or raises an exception that satisfies [P]. *)
Definition raises_only {A} (P : exn -> Prop) (m : result A) : Prop :=
  match m with
  | Ok _ => True
  | Raise e => P e
  end.

(** The exceptions decoding the row [r] can end in: a [KeyError] names a
    column the row does not have. *)
Definition row_error (r : row) (e : exn) : Prop :=
  match e with
  | KeyError k => dict_get String.eqb k r = None
  | ValueError | NameError _ | TypeError | AttributeError => True
  | _ => False
  end.

(** The columns [Memory] reads, in the order it reads them. *)
Definition memory_columns : list string :=
  ["memory.usage.current"; "memory.usage.max"; "memory.limit.hard";
   "memory.limit.soft"; "memory.failcnt"; "memory.hierarchical_limit.memory";
   "memory.hierarchical_limit.memoryswap"; "memory.cache"; "memory.rss.all";
   "memory.rss.huge"; "memory.mapped"; "memory.swap"; "memory.paged.in";
   "memory.paged.out"; "memory.fault.total"; "memory.fault.major";
   "memory.anon.inactive"; "memory.anon.active"; "memory.file.inactive";
   "memory.file.active"; "memory.unevictable"].

(** The fields of a [Memory], in the order of [memory_columns]. *)
Definition memory_values (m : Memory) : list Z :=
  [usage_current m; max_usage m; hard_limit m; soft_limit m; failcnt m;
   mem_limit m; swap_limit m; cache m; rss_all m; rss_huge m; mapped m;
   swap m; paged_in m; paged_out m; fault_total m; fault_major m;
   anon_inactive m; anon_active m; file_inactive m; file_active m;
   unevictable m].

(** The message of the [csv.Error] a stream ends in, if it does. *)
Fixpoint failure {A} (s : stream A) : option string :=
  match s with
  | Done => None
  | Failed msg => Some msg
  | Item _ rest => failure rest
  end.

(** The file names of [l] in order of first appearance, without those
    in [seen]. *)
Fixpoint first_files (seen l : list string) : list string :=
  match l with
  | [] => []
  | x :: l' =>
      if existsb (String.eqb x) seen then first_files seen l'
      else x :: first_files (seen ++ [x]) l'
  end.

(** The character [c] does not occur in [s]. *)
Fixpoint free_of (c : ascii) (s : string) : bool :=
  match s with
  | EmptyString => true
  | String d s' => negb (Ascii.eqb d c) && free_of c s'
  end.

(** A blkio fragment as it is written: [major:minor op value]. *)
Definition blkio_fragment (major minor : Z) (op : string) (value : Z)
  : string :=
  decimal major ++ ":" ++ decimal minor ++ " " ++ op ++ " " ++ decimal value.

(** The columns [Blkio] reads, in the order it reads them. *)
Definition blkio_columns : list string :=
  ["blkio.service.bytes"; "blkio.service.ios"; "blkio.service.time";
   "blkio.queued"; "blkio.wait"; "blkio.merged"; "blkio.time";
   "blkio.sectors"].

(** The fields of a [Blkio], in the order of [blkio_columns]. *)
Definition blkio_values (b : Blkio) : list (list object) :=
  [service_bytes b; serviced b; service_time b; queued b; wait_time b;
   merged b; time b; sectors b].

(** The cells of [pids.max] that [PidsStats] stores as 0. *)
Definition unlimited_cells : list (option string) :=
  [Some "max"; Some "0"; Some EmptyString; None].

End Words.

(* ================================================================= *)
(** ** Verification *)

Import Py Csv Radvisor Samples.

(** *** The header of a file *)

Lemma read_yaml_lines_until_delimiter (ys : list string) (d : string)
      (rest : list string) :
  Forall (fun y => startswith y "---" = false) ys ->
  startswith d "---" = true ->
  read_yaml_lines (ys ++ d :: rest) = Ok (ys, rest).
Proof.
  intros Hys Hd. induction Hys as [|y ys Hy _ IH]; simpl.
  - now rewrite Hd.
  - now rewrite Hy, IH.
Qed.

Lemma read_yaml_lines_without_delimiter (lines : list string) :
  Forall (fun y => startswith y "---" = false) lines ->
  read_yaml_lines lines = Raise StopIteration.
Proof.
  induction 1 as [|y ys Hy _ IH]; simpl.
  - reflexivity.
  - now rewrite Hy, IH.
Qed.

(** C10. The first line is dropped without being looked at: whatever it
    is, when a later line starts with [---] and no line between them
    does, the lines from the second up to that line are joined and
    decoded as the metadata document, and the lines after it are the
    tabular section. *)
Theorem C10_first_line_is_not_checked
        (G : Globals) (Metadata : Type) (get_data : string -> result Metadata)
        (first : string) (ys : list string) (d : string) (rest : list string) :
  Forall (fun y => startswith y "---" = false) ys ->
  startswith d "---" = true ->
  read_yaml_lines (ys ++ d :: rest) = Ok (ys, rest)
  /\ load_lines G Metadata get_data (first :: ys ++ d :: rest)
     = load_tabular G Metadata get_data (join nl ys) rest.
Proof.
  intros Hys Hd.
  pose proof (read_yaml_lines_until_delimiter ys d rest Hys Hd) as E.
  split; [exact E|].
  unfold load_lines. now rewrite E.
Qed.

Lemma C10_witness :
  load_lines module_globals _ text_get_data odd_first_line_file
  = load_tabular module_globals _ text_get_data
      (join nl ["Version: 1" ++ nl]) [header_line; header_line]
  /\ startswith "not a delimiter" "---" = false.
Proof.
  split; [|reflexivity].
  apply (C10_first_line_is_not_checked module_globals _ text_get_data
           ("not a delimiter" ++ nl) ["Version: 1" ++ nl] delimiter_line
           [header_line; header_line]).
  - repeat constructor.
  - reflexivity.
Defined.

(** *** Row decoding in the module as it stands *)

Lemma LogEntry_init_without_CpuUsage (r : row) (n : Z) (preread : option Z)
      (entries : option OrderedDict) :
  in_t_col r "read" = Ok n ->
  LogEntry_init module_globals r preread entries = Raise (NameError "CpuUsage").
Proof.
  intros Hread. unfold LogEntry_init, LogEntry_fields.
  rewrite Hread. reflexivity.
Qed.

(** C1. In the module as it stands the name [CpuUsage] is bound to
    nothing (the class that reads the cpu columns was given the name
    [BlkioEntry]).  So for every file with both delimiter lines, a
    metadata document that decodes, the column-header row, the row the
    parser skips, and at least one data row whose read column decodes,
    [load_file] does not return the pair of sequence and metadata: the
    first data row raises [NameError], which no handler catches. *)
Theorem C1_first_data_row_raises_NameError
        (Metadata : Type) (get_data : string -> result Metadata)
        (first : string) (lines yaml_lines tabular : list string)
        (metadata : Metadata) (skipped r : row) (rest : stream row) (n : Z) :
  read_yaml_lines lines = Ok (yaml_lines, tabular) ->
  get_data (join nl yaml_lines) = Ok metadata ->
  DictReader tabular = Item skipped (Item r rest) ->
  in_t_col r "read" = Ok n ->
  load_lines module_globals Metadata get_data (first :: lines)
  = ([], Raise (NameError "CpuUsage")).
Proof.
  intros Hyaml Hdata Hrows Hread.
  unfold load_lines. rewrite Hyaml.
  unfold load_tabular. rewrite Hdata, Hrows.
  cbn [next read_rows].
  now rewrite LogEntry_init_without_CpuUsage with (n := n).
Qed.

Lemma C1_witness :
  load_lines module_globals _ text_get_data one_row_file
  = ([], Raise (NameError "CpuUsage")).
Proof.
  unfold one_row_file.
  eapply (C1_first_data_row_raises_NameError _ text_get_data delimiter_line
            _ [] _ None _ _ Done 100).
  - reflexivity.
  - reflexivity.
  - vm_compute. reflexivity.
  - vm_compute. reflexivity.
Defined.

(** *** A tabular section without data rows *)

(** C5, as stated, fails: with the column-header row alone in the
    tabular section, the reader takes that row for the field names and
    the parser's extra [next] finds nothing. *)
Lemma C5_header_alone_raises :
  load_lines module_globals _ text_get_data header_only_file
  = ([], Raise StopIteration).
Proof. vm_compute. reflexivity. Qed.

(** C5, amended.  When the tabular section holds the column-header row
    and exactly one further non-empty record (the duplicated header, or
    whatever stands there) and the metadata decodes, [load_file] returns
    the empty sequence with the metadata.  When it holds the
    column-header row alone, [load_file] raises [StopIteration]. *)
Theorem C5_no_data_rows
        (G : Globals) (Metadata : Type) (get_data : string -> result Metadata)
        (first : string) (lines yaml_lines tabular : list string)
        (metadata : Metadata) (fieldnames : list string) :
  read_yaml_lines lines = Ok (yaml_lines, tabular) ->
  get_data (join nl yaml_lines) = Ok metadata ->
  (forall cells, cells <> [] ->
     reader tabular = Item fieldnames (Item cells Done) ->
     load_lines G Metadata get_data (first :: lines) = ([], Ok ([], metadata)))
  /\ (reader tabular = Item fieldnames Done ->
      load_lines G Metadata get_data (first :: lines)
      = ([], Raise StopIteration)).
Proof.
  intros Hyaml Hdata.
  unfold load_lines, load_tabular, DictReader. rewrite Hyaml, Hdata.
  split.
  - intros cells Hcells Hrecs. rewrite Hrecs.
    destruct cells as [|c cells]; [contradiction|]. reflexivity.
  - intros Hrecs. rewrite Hrecs. reflexivity.
Qed.

Lemma C5_witness :
  load_lines module_globals _ text_get_data no_rows_file = ([], Ok ([], None)).
Proof.
  unfold no_rows_file.
  refine (proj1 (C5_no_data_rows module_globals _ text_get_data delimiter_line
                   _ [] [header_line; header_line] None columns _ _)
                columns _ _).
  - reflexivity.
  - reflexivity.
  - discriminate.
  - vm_compute. reflexivity.
Defined.

(** *** A file without the second delimiter, and the batch *)

Section Batch.
Variable G : Globals.
Variable Metadata : Type.
Variable get_data : string -> result Metadata.
Variable fs : string -> option (list string).
Variable relpath : string -> result string.

Let load := load_file G Metadata get_data fs.
Let parse := parse_files G Metadata get_data fs relpath.

Let parses := parses G Metadata get_data fs relpath.

Lemma parse_files_through (before : list string) :
  Forall parses before ->
  forall parsed, exists (out : stdout) parsed',
    forall files,
      parse parsed (before ++ files)%list
      = ((out ++ fst (parse parsed' files))%list, snd (parse parsed' files)).
Proof.
  induction 1 as [|file before [Hrel Hload] _ IH]; intros parsed.
  - exists [], parsed. intros files. simpl. now destruct (parse parsed files).
  - unfold load in Hload.
    destruct (relpath file) as [relative|] eqn:Erel; [|discriminate].
    destruct (load_file G Metadata get_data fs file) as [out [log_data|]] eqn:El;
      [|discriminate].
    destruct (IH (dict_set String.eqb file log_data parsed))
      as (out' & parsed' & Hrest).
    exists (("Parsing log data from " ++ relative ++ "... ")%string
              :: (out ++ "done" :: out')%list), parsed'.
    intros files. unfold parse in *. simpl. rewrite Erel, El, Hrest.
    simpl. now rewrite <- app_assoc.
Qed.

Lemma load_file_unterminated (bad first : string) (lines : list string) :
  fs bad = Some (first :: lines) ->
  Forall (fun y => startswith y "---" = false) lines ->
  load bad = ([], Raise StopIteration).
Proof.
  intros Hfs Hlines. unfold load, load_file, load_lines. rewrite Hfs.
  now rewrite read_yaml_lines_without_delimiter.
Qed.

(** C2, amended.  A file that has a first line but no later line
    starting with [---] makes [load_file] raise [StopIteration] at the
    end of input.  [parse_all] has no handler: when the files before it
    parse, the run ends with that exception once the file is reached,
    whatever files come after it; they are not parsed.  What the run has
    printed by then is what parsing the files before it prints,
    followed by the announcement of the file and nothing more. *)
Theorem C2_unterminated_file_ends_the_batch
        (before : list string) (bad first relative : string)
        (lines : list string) :
  fs bad = Some (first :: lines) ->
  Forall (fun y => startswith y "---" = false) lines ->
  relpath bad = Ok relative ->
  Forall (Samples.parses G Metadata get_data fs relpath) before ->
  load_file G Metadata get_data fs bad = ([], Raise StopIteration)
  /\ exists (out : stdout) parsed,
       parse_all G Metadata get_data fs relpath before = (out, Ok parsed)
       /\ forall after,
            parse_all G Metadata get_data fs relpath
                      (before ++ bad :: after)%list
            = ((out ++ [("Parsing log data from " ++ relative
                         ++ "... ")%string])%list,
               Raise StopIteration).
Proof.
  intros Hfs Hlines Hrel Hbefore.
  pose proof (load_file_unterminated bad first lines Hfs Hlines) as Hbad.
  split; [exact Hbad|].
  destruct (parse_files_through before Hbefore []) as (out & parsed' & Hrest).
  exists out, parsed'. split.
  - unfold parse_all. fold parse.
    rewrite <- (app_nil_r before) at 1. rewrite Hrest.
    unfold parse. simpl. now rewrite app_nil_r.
  - intros after. unfold parse_all. fold parse. rewrite Hrest.
    unfold parse. simpl. rewrite Hrel. fold load. rewrite Hbad. reflexivity.
Qed.

End Batch.

(** C2, as stated, fails: the unterminated file stops the batch, the
    file after it is never opened, and the exception is
    [StopIteration]. *)
Lemma C2_batch_is_aborted :
  parse_all module_globals _ text_get_data sample_fs sample_relpath
            ["bad.log"; "good.log"]
  = (["Parsing log data from bad.log... "], Raise StopIteration)
  /\ parse_all module_globals _ text_get_data sample_fs sample_relpath
               ["good.log"]
     = (["Parsing log data from good.log... "; "done"],
        Ok [("good.log", ([], None))]).
Proof. split; vm_compute; reflexivity. Qed.

Lemma C2_witness :
  load_file module_globals _ text_get_data sample_fs "bad.log"
  = ([], Raise StopIteration)
  /\ exists (out : stdout) parsed,
       parse_all module_globals _ text_get_data sample_fs sample_relpath
                 ["good.log"]
       = (out, Ok parsed)
       /\ forall after,
            parse_all module_globals _ text_get_data sample_fs sample_relpath
                      (["good.log"] ++ "bad.log" :: after)%list
            = ((out ++ [("Parsing log data from " ++ "bad.log"
                         ++ "... ")%string])%list,
               Raise StopIteration).
Proof.
  apply (C2_unterminated_file_ends_the_batch module_globals _ text_get_data
           sample_fs sample_relpath ["good.log"] "bad.log" delimiter_line
           "bad.log" ["Version: 1" ++ nl]).
  - reflexivity.
  - repeat constructor.
  - reflexivity.
  - repeat constructor.
Defined.

(** *** The row loop *)

Ltac step_binds H :=
  repeat match type of H with
         | bind ?m _ = _ =>
             let E := fresh "E" in
             destruct m eqn:E; cbn [bind] in H; [|discriminate H]
         end.

Lemma LogEntry_init_ok (G : Globals) (r : row) (preread : option Z)
      (entries : option OrderedDict) n c m p b :
  LogEntry_fields G r = Ok (n, c, m, p, b) ->
  LogEntry_init G r preread entries
  = Ok (mkLogEntry n c m p b (resolve_pre preread entries)).
Proof. intros H. unfold LogEntry_init. now rewrite H. Qed.

Lemma LogEntry_init_raise (G : Globals) (r : row) (preread : option Z)
      (entries : option OrderedDict) (e : exn) :
  LogEntry_fields G r = Raise e ->
  LogEntry_init G r preread entries = Raise e.
Proof. intros H. unfold LogEntry_init. now rewrite H. Qed.

Lemma LogEntry_fields_read (G : Globals) (r : row) n c m p b :
  LogEntry_fields G r = Ok (n, c, m, p, b) -> in_t_col r "read" = Ok n.
Proof.
  unfold LogEntry_fields. intros H.
  destruct (in_t_col r "read") as [n'|] eqn:E; cbn [bind] in H;
    [|discriminate H].
  step_binds H. now inversion H.
Qed.

Lemma decodes_inv (G : Globals) (r : row) :
  decodes G r ->
  exists c m p b, LogEntry_fields G r = Ok (row_read r, c, m, p, b).
Proof.
  unfold decodes. destruct (LogEntry_fields G r) as [[[[[n c] m] p] b]|] eqn:E;
    [intros _|discriminate].
  exists c, m, p, b. unfold row_read.
  now rewrite (LogEntry_fields_read G r n c m p b E).
Qed.

Lemma read_rows_prepend (G : Globals) (good : list row) (s : stream row) :
  Forall (decodes G) good ->
  forall entries preread,
    read_rows G (prepend good s) entries preread
    = read_rows G s (fst (absorb G good entries preread))
                (snd (absorb G good entries preread)).
Proof.
  induction 1 as [|r good Hr _ IH]; intros entries preread.
  - reflexivity.
  - destruct (decodes_inv G r Hr) as (c & m & p & b & E).
    cbn [prepend read_rows absorb].
    rewrite (LogEntry_init_ok G r preread (Some entries) _ c m p b E).
    apply IH.
Qed.

Lemma read_rows_raise (G : Globals) (r : row) (rest : stream row) (e : exn)
      (entries : OrderedDict) (preread : option Z) :
  LogEntry_fields G r = Raise e ->
  (forall msg, e <> CsvError msg) ->
  read_rows G (Item r rest) entries preread = ([], Raise e).
Proof.
  intros E Hcsv. cbn [read_rows].
  rewrite (LogEntry_init_raise G r preread (Some entries) e E).
  destruct e; try reflexivity. now elim (Hcsv msg).
Qed.

Lemma in_t_col_text (r : row) (key s : string) :
  getitem r key = Ok (Some s) ->
  s <> EmptyString ->
  int s = Raise ValueError ->
  in_t_col r key = Raise ValueError.
Proof.
  intros Hget Hs Hint. unfold in_t_col. rewrite Hget. cbn [bind in_t].
  destruct s; [contradiction|exact Hint].
Qed.

(** C3, as stated, fails: text in the read column of the first data row
    makes [load_file] raise [ValueError]; nothing is reported, and the
    row after it is in no returned sequence, because none is returned.
    The same holds when the two classes carry the names their callers
    use. *)
Lemma C3_text_in_read_column_raises :
  load_lines module_globals _ text_get_data bad_read_file
  = ([], Raise ValueError)
  /\ load_lines renamed_globals _ text_get_data bad_read_file
     = ([], Raise ValueError).
Proof. split; vm_compute; reflexivity. Qed.

(** C3, amended.  When the rows before some data row decode and that
    row does not (text in the read column makes [int] raise
    [ValueError], whatever the module's names are bound to), the
    exception is not a [csv.Error], the handler around the row loop does
    not catch it, and [load_file] raises it: nothing is printed, no
    sequence is returned, the rows after it are not decoded.  Only a
    [csv.Error] of the tabular reader is handled: it is printed,
    followed by the line [An error ocurred. continuing...], the loop
    ends there, and the entries of the rows before it are returned. *)
Theorem C3_row_error_is_not_recovered
        (G : Globals) (Metadata : Type) (get_data : string -> result Metadata)
        (first : string) (lines yaml_lines tabular : list string)
        (metadata : Metadata) (skipped : row) (good : list row) :
  read_yaml_lines lines = Ok (yaml_lines, tabular) ->
  get_data (join nl yaml_lines) = Ok metadata ->
  Forall (decodes G) good ->
  (forall bad rest e,
     DictReader tabular = Item skipped (prepend good (Item bad rest)) ->
     LogEntry_fields G bad = Raise e ->
     (forall msg, e <> CsvError msg) ->
     load_lines G Metadata get_data (first :: lines) = ([], Raise e))
  /\ (forall bad s,
        getitem bad "read" = Ok (Some s) ->
        s <> EmptyString ->
        int s = Raise ValueError ->
        LogEntry_fields G bad = Raise ValueError)
  /\ (forall msg,
        DictReader tabular = Item skipped (prepend good (Failed msg)) ->
        load_lines G Metadata get_data (first :: lines)
        = ([msg; "An error ocurred. continuing..." ++ nl],
           Ok (fst (absorb G good [] None), metadata))).
Proof.
  intros Hyaml Hdata Hgood.
  unfold load_lines, load_tabular. rewrite Hyaml, Hdata.
  split; [|split].
  - intros bad rest e Hrows Hbad Hcsv. rewrite Hrows. cbn [next].
    rewrite (read_rows_prepend G good _ Hgood).
    now rewrite (read_rows_raise G bad rest e _ _ Hbad Hcsv).
  - intros bad s Hget Hs Hint. unfold LogEntry_fields.
    now rewrite (in_t_col_text bad "read" s Hget Hs Hint).
  - intros msg Hrows. rewrite Hrows. cbn [next].
    rewrite (read_rows_prepend G good _ Hgood). reflexivity.
Qed.

Lemma C3_witness :
  load_lines module_globals _ text_get_data bad_read_file
  = ([], Raise ValueError).
Proof.
  unfold bad_read_file.
  refine (proj1 (C3_row_error_is_not_recovered module_globals _ text_get_data
                   delimiter_line _ [] _ None _ [] _ _ _) _ _ ValueError _ _ _).
  - reflexivity.
  - reflexivity.
  - constructor.
  - vm_compute. reflexivity.
  - vm_compute. reflexivity.
  - discriminate.
Defined.

(** *** Blkio cells *)

Lemma prefix_app (p b : string) : String.prefix p (p ++ b) = true.
Proof.
  induction p as [|c p IH]; simpl.
  - now destruct b.
  - destruct (ascii_dec c c) as [_|Hc]; [exact IH|now elim Hc].
Qed.

Lemma string_app_assoc (a b c : string) : (a ++ b) ++ c = a ++ b ++ c.
Proof. induction a as [|x a IH]; simpl; [reflexivity|now rewrite IH]. Qed.

Lemma contains_app (p a b : string) : contains p (a ++ p ++ b) = true.
Proof.
  induction a as [|c a IH].
  - change (EmptyString ++ p ++ b) with (p ++ b).
    pose proof (prefix_app p b) as H.
    destruct (p ++ b); cbn [contains]; now rewrite H.
  - change (String c a ++ p ++ b) with (String c (a ++ p ++ b)).
    cbn [contains]. rewrite IH. apply orb_true_r.
Qed.

Lemma split_not_nil (sep : ascii) (s : string) : split sep s <> [].
Proof.
  destruct s as [|c s]; simpl; [discriminate|].
  destruct (Ascii.eqb c sep); [discriminate|].
  destruct (split sep s); discriminate.
Qed.

Lemma join_cons (sep x : string) (xs : list string) :
  xs <> [] -> join sep (x :: xs) = x ++ sep ++ join sep xs.
Proof. destruct xs; [contradiction|reflexivity]. Qed.

Lemma join_head (sep : string) (c : ascii) (t : string) (ts : list string) :
  join sep (String c t :: ts) = String c (join sep (t :: ts)).
Proof. destruct ts; reflexivity. Qed.

Lemma join_split (sep : ascii) (s : string) :
  join (String sep EmptyString) (split sep s) = s.
Proof.
  induction s as [|c s IH]; [reflexivity|].
  cbn [split]. pose proof (split_not_nil sep s) as Hne.
  destruct (Ascii.eqb_spec c sep) as [->|_].
  - rewrite (join_cons _ _ _ Hne), IH. reflexivity.
  - destruct (split sep s) as [|t ts]; [contradiction|].
    now rewrite join_head, IH.
Qed.

Lemma Total_token_is_dropped (entry a v : string) :
  split " " entry = [a; "Total"; v] -> blkio_keep entry = false.
Proof.
  intros Hs. unfold blkio_keep.
  assert (C : contains "Total" entry = true).
  { rewrite <- (join_split " " entry), Hs. cbn [join].
    rewrite <- (string_app_assoc a " " ("Total" ++ " " ++ v)).
    apply contains_app. }
  rewrite C. apply andb_false_r.
Qed.

(** C6, as stated, fails.  A sub-entry of three tokens whose operation
    is Totals, not Total, is dropped, because the text Total occurs in
    it; so is a sub-entry whose three tokens are separated by tabs,
    because only single spaces split it.  The claim has each of them
    decoded into an entry. *)
Lemma C6_fragments_dropped_beyond_the_claim :
  split " " "8:0 Totals 5" = ["8:0"; "Totals"; "5"]
  /\ parse_blkio module_globals (Some "8:0 Totals 5") = Ok []
  /\ parse_blkio module_globals
       (Some (String "8" (String ":" (String "0" (String (chr 9)
          (String "R" (String (chr 9) (String "5" EmptyString))))))))
     = Ok [].
Proof. repeat split; vm_compute; reflexivity. Qed.

(** C6, amended.  For every blkio cell value, the sub-entries kept are
    the comma-separated fragments, stripped, that split on single spaces
    into exactly three tokens and do not contain the text Total; so a
    fragment whose operation token is Total is dropped, and so is one
    whose token count is not three.  The result is made from the kept
    fragments alone, in order: dropped fragments have no effect on it,
    and a cell in which no fragment is kept decodes to the empty
    list. *)
Theorem C6_blkio_filtering (G : Globals) (raw : string) :
  let fragments := map strip (split "," raw) in
  let kept := filter blkio_keep fragments in
  (forall e a v, split " " e = [a; "Total"; v] -> ~ In e kept)
  /\ (forall e, List.length (split " " e) <> 3%nat -> ~ In e kept)
  /\ (forall e, In e kept <->
                In e fragments /\ List.length (split " " e) = 3%nat
                /\ contains "Total" e = false)
  /\ parse_blkio G (Some raw)
     = traverse (fun e => call "BlkioEntry" (g_BlkioEntry G) (Str e)) kept
  /\ (kept = [] -> parse_blkio G (Some raw) = Ok []).
Proof.
  intros fragments kept.
  assert (Hkept : forall e, In e kept <->
                            In e fragments
                            /\ List.length (split " " e) = 3%nat
                            /\ contains "Total" e = false).
  { intros e. unfold kept. rewrite filter_In. unfold blkio_keep.
    rewrite andb_true_iff, Nat.eqb_eq, negb_true_iff. tauto. }
  assert (Hparse : parse_blkio G (Some raw)
                   = traverse (fun e => call "BlkioEntry" (g_BlkioEntry G)
                                             (Str e)) kept) by reflexivity.
  split; [|split; [|split; [exact Hkept|split; [exact Hparse|]]]].
  - intros e a v Hs Hin. apply filter_In in Hin. destruct Hin as [_ Hk].
    rewrite (Total_token_is_dropped e a v Hs) in Hk. discriminate.
  - intros e Hlen Hin. apply Hkept in Hin. tauto.
  - intros Hnone. rewrite Hparse, Hnone. reflexivity.
Qed.

Lemma C6_witness :
  parse_blkio module_globals
    (Some "Total 12,,a b,8:0 Total 3, 8:0 Totals 5 ")
  = Ok [].
Proof.
  apply (proj2 (proj2 (proj2 (proj2
           (C6_blkio_filtering module_globals
              "Total 12,,a b,8:0 Total 3, 8:0 Totals 5 "))))).
  vm_compute. reflexivity.
Defined.

(** *** Timestamp deltas *)

Local Open Scope float_scope.

Lemma find_deltas_cons (a b : float) (l : list float) :
  find_deltas (a :: b :: l) = (b - a) :: find_deltas (b :: l).
Proof. reflexivity. Qed.

Lemma find_deltas_length (arr : list float) :
  List.length (find_deltas arr) = (List.length arr - 1)%nat.
Proof.
  destruct arr as [|a arr]; [reflexivity|].
  revert a. induction arr as [|b arr IH]; intros a; [reflexivity|].
  rewrite find_deltas_cons. cbn [List.length]. rewrite IH.
  cbn [List.length]. lia.
Qed.


Lemma traverse_to_ms (timestamps : list Z) :
  Forall representable timestamps ->
  exists ms,
    traverse to_ms timestamps = Ok ms
    /\ Forall2 (fun t m => exists f, pyfloat t = Ok f /\ m = f / 1e6)
               timestamps ms.
Proof.
  induction 1 as [|t ts Ht _ (ms & Hms & Hall)].
  - exists []. split; [reflexivity|constructor].
  - unfold representable in Ht.
    destruct (pyfloat t) as [f|] eqn:Ef; [|discriminate].
    exists (f / 1e6 :: ms). split.
    + cbn [traverse]. unfold to_ms at 1. rewrite Ef. cbn [bind].
      now rewrite Hms.
    + constructor; [|exact Hall]. now exists f.
Qed.


Lemma get_ts_deltas_length (timestamps : list Z) :
  Forall representable timestamps ->
  exists deltas,
    get_ts_deltas timestamps = Ok deltas
    /\ List.length deltas = (List.length timestamps - 1)%nat.
Proof.
  intros Hrep.
  destruct (traverse_to_ms timestamps Hrep) as (ms & Hms & Hall).
  exists (find_deltas ms). unfold get_ts_deltas. rewrite Hms. cbn [bind].
  split; [reflexivity|].
  rewrite find_deltas_length. now rewrite (Forall2_length Hall).
Qed.



(** *** Outlier rejection *)

Lemma insert_sorted_not_nil (x : float) (l : list float) :
  insert_sorted x l <> [].
Proof.
  destruct l as [|y l]; simpl; [discriminate|].
  destruct (nan_last_leb x y); discriminate.
Qed.

Lemma sort_floats_not_nil (arr : list float) :
  arr <> [] -> sort_floats arr <> [].
Proof.
  destruct arr as [|a arr]; [contradiction|]. intros _.
  apply insert_sorted_not_nil.
Qed.

Lemma percentile_returns (arr : list float) (q : float) :
  arr <> [] -> exists v, percentile arr q = Ok v.
Proof.
  intros Hne. pose proof (sort_floats_not_nil arr Hne) as Hs.
  unfold percentile. destruct (sort_floats arr) as [|s sorted]; [contradiction|].
  match goal with
  | |- context [if ?c then Ok nan else _] => destruct c
  end; eexists; reflexivity.
Qed.

(** C8. For every non-empty array and every multiplier [z],
    [remove_outliers] computes the 25th and 75th percentiles, takes
    [iqr = q75 - q25] and [limit = z * iqr], and returns exactly the
    elements [a] of the array with [q25 - limit <= a <= q75 + limit], in
    their order.  The percentiles interpolate linearly: those of
    1, 2, 3, 4 are 1.75 and 3.25.  For 1, 2, 2, 3, 3, 3, 4, 4, 100 with
    the default multiplier 1.5 the percentiles are 2 and 4 and the
    value 100 is left out. *)
Theorem C8_remove_outliers (arr : list float) (z : float) :
  arr <> [] ->
  (exists q25 q75,
     percentile arr 25 = Ok q25
     /\ percentile arr 75 = Ok q75
     /\ let iqr := q75 - q25 in
        let limit := z * iqr in
        remove_outliers arr z
        = Ok (filter (fun a => (q25 - limit <=? a) && (a <=? q75 + limit)) arr)
        /\ forall retained,
             remove_outliers arr z = Ok retained ->
             forall a, In a retained <->
                       In a arr /\ (q25 - limit <=? a) = true
                       /\ (a <=? q75 + limit) = true)
  /\ percentile [1; 2; 3; 4] 25 = Ok 1.75
  /\ percentile [1; 2; 3; 4] 75 = Ok 3.25
  /\ z_default = 1.5
  /\ percentile [1; 2; 2; 3; 3; 3; 4; 4; 100] 25 = Ok 2
  /\ percentile [1; 2; 2; 3; 3; 3; 4; 4; 100] 75 = Ok 4
  /\ remove_outliers [1; 2; 2; 3; 3; 3; 4; 4; 100] z_default
     = Ok [1; 2; 2; 3; 3; 3; 4; 4].
Proof.
  intros Hne. split; [|repeat split; vm_compute; reflexivity].
  destruct (percentile_returns arr 25 Hne) as (q25 & H25).
  destruct (percentile_returns arr 75 Hne) as (q75 & H75).
  exists q25, q75. split; [exact H25|]. split; [exact H75|].
  cbv zeta.
  assert (E : remove_outliers arr z
              = Ok (filter (fun a => (q25 - z * (q75 - q25) <=? a)
                                     && (a <=? q75 + z * (q75 - q25))) arr)).
  { unfold remove_outliers. rewrite H25, H75. reflexivity. }
  split; [exact E|].
  intros retained Hret a. rewrite E in Hret. inversion Hret; subst.
  rewrite filter_In, andb_true_iff. reflexivity.
Qed.

Lemma C8_witness :
  exists q25 q75,
    percentile [4; 1; 3; 2; 50] 25 = Ok q25
    /\ percentile [4; 1; 3; 2; 50] 75 = Ok q75
    /\ let iqr := q75 - q25 in
       let limit := 1.5 * iqr in
       remove_outliers [4; 1; 3; 2; 50] 1.5
       = Ok (filter (fun a => (q25 - limit <=? a) && (a <=? q75 + limit))
                    [4; 1; 3; 2; 50])
       /\ forall retained,
            remove_outliers [4; 1; 3; 2; 50] 1.5 = Ok retained ->
            forall a, In a retained <->
                      In a [4; 1; 3; 2; 50] /\ (q25 - limit <=? a) = true
                      /\ (a <=? q75 + limit) = true.
Proof.
  apply (C8_remove_outliers [4; 1; 3; 2; 50] 1.5). discriminate.
Defined.

(** *** Fewer than two samples *)

(** C9, as stated, fails: one sample whose read timestamp lies beyond
    the range of a float makes the conversion raise, so no delta array
    and no table is produced. *)
Lemma C9_one_sample_beyond_the_float_range :
  get_ts_deltas [(10 ^ 400)%Z] = Raise OverflowError
  /\ analyze_timestamps
       [((10 ^ 400)%Z,
         mkLogEntry (10 ^ 400) (Obj1 (mkBlkioEntry1 0 0 0 EmptyString))
           (mkMemory 0 0 0 0 0 0 0 0 0 0 0 0 0 0 0 0 0 0 0 0 0)
           (mkPidsStats 0 0) (mkBlkio [] [] [] [] [] [] [] []) None)]
     = Raise OverflowError.
Proof. split; vm_compute; reflexivity. Qed.

(** C9, amended.  For a sequence of no sample, and for a sequence of
    one sample whose timestamp converts to a float, [get_ts_deltas]
    gives the empty array and [analyze_timestamps] returns a table: its
    count is 0 and every other field is NaN.  For a sequence of one
    sample whose timestamp does not convert, both raise
    [OverflowError]. *)
Theorem C9_fewer_than_two_samples (entries : OrderedDict) :
  (List.length entries < 2)%nat ->
  (Forall representable (dict_keys entries) ->
   get_ts_deltas (dict_keys entries) = Ok []
   /\ exists stats,
        analyze_timestamps entries = Ok stats
        /\ stat_count stats = 0%Z
        /\ is_nan (stat_mean stats) = true
        /\ is_nan (stat_std stats) = true
        /\ is_nan (stat_min stats) = true
        /\ is_nan (stat_q25 stats) = true
        /\ is_nan (stat_q50 stats) = true
        /\ is_nan (stat_q75 stats) = true
        /\ is_nan (stat_max stats) = true)
  /\ (entries = [] -> Forall representable (dict_keys entries))
  /\ (~ Forall representable (dict_keys entries) ->
      get_ts_deltas (dict_keys entries) = Raise OverflowError
      /\ analyze_timestamps entries = Raise OverflowError).
Proof.
  intros Hlen. split; [|split].
  - intros Hrep.
    assert (Hd : get_ts_deltas (dict_keys entries) = Ok []).
    { destruct (get_ts_deltas_length (dict_keys entries) Hrep)
        as (deltas & Hd & Hl).
      rewrite Hd. f_equal.
      unfold dict_keys in Hl. rewrite length_map in Hl.
      destruct deltas; [reflexivity|cbn in Hl; lia]. }
    split; [exact Hd|].
    exists (describe []). unfold analyze_timestamps. rewrite Hd. cbn [bind].
    split; [reflexivity|].
    repeat split; vm_compute; reflexivity.
  - intros ->. constructor.
  - intros Hnot.
    destruct entries as [|[t e] [|kv entries]];
      [elim Hnot; constructor| |cbn in Hlen; lia].
    assert (Ht : pyfloat t = Raise OverflowError).
    { destruct (pyfloat t) as [f|e'] eqn:Ef.
      - elim Hnot. unfold dict_keys. cbn [map fst].
        constructor; [|constructor].
        unfold representable. now rewrite Ef.
      - unfold pyfloat in Ef. cbv zeta in Ef.
        destruct (PrimFloat.is_infinity (float_of_Z t));
          [now injection Ef as <-|discriminate Ef]. }
    unfold analyze_timestamps, get_ts_deltas, dict_keys.
    cbn [map fst traverse]. unfold to_ms. rewrite Ht. split; reflexivity.
Qed.

Lemma C9_witness :
  get_ts_deltas [1000000%Z] = Ok []
  /\ exists stats,
       analyze_timestamps
         [(1000000%Z,
           mkLogEntry 1000000 (Obj1 (mkBlkioEntry1 0 0 0 EmptyString))
             (mkMemory 0 0 0 0 0 0 0 0 0 0 0 0 0 0 0 0 0 0 0 0 0)
             (mkPidsStats 0 0) (mkBlkio [] [] [] [] [] [] [] []) None)]
       = Ok stats
       /\ stat_count stats = 0%Z
       /\ is_nan (stat_mean stats) = true
       /\ is_nan (stat_std stats) = true
       /\ is_nan (stat_min stats) = true
       /\ is_nan (stat_q25 stats) = true
       /\ is_nan (stat_q50 stats) = true
       /\ is_nan (stat_q75 stats) = true
       /\ is_nan (stat_max stats) = true.
Proof.
  apply (proj1 (C9_fewer_than_two_samples
           [(1000000%Z,
             mkLogEntry 1000000 (Obj1 (mkBlkioEntry1 0 0 0 EmptyString))
               (mkMemory 0 0 0 0 0 0 0 0 0 0 0 0 0 0 0 0 0 0 0 0 0)
               (mkPidsStats 0 0) (mkBlkio [] [] [] [] [] [] [] []) None)]
           ltac:(cbn; lia))).
  repeat constructor.
Defined.

(* ================================================================= *)
(** ** Further properties of the code *)

Import Words.
Local Close Scope float_scope.

(** *** [in_t] and [int] *)

Lemma digits_from_acc (d : Decimal.uint) (acc : positive) :
  digits_from (Zpos acc) (DecimalString.NilEmpty.string_of_uint d)
  = Some (Zpos (Pos.of_uint_acc d acc)).
Proof.
  revert acc. induction d; intros acc; cbn [DecimalString.NilEmpty.string_of_uint];
    [reflexivity|..];
    cbn [digits_from Pos.of_uint_acc];
    match goal with
    | |- context [Ascii.eqb ?c "_"%char] =>
        change (Ascii.eqb c "_"%char) with false; cbv iota
    end;
    match goal with
    | |- context [digit ?c] =>
        let v := eval vm_compute in (digit c) in
        change (digit c) with v; cbv iota
    end;
    rewrite <- IHd; f_equal; lia.
Qed.

Lemma digits_from_zero (d : Decimal.uint) :
  digits_from 0 (DecimalString.NilEmpty.string_of_uint d)
  = Some (Z.of_N (Pos.of_uint d)).
Proof.
  induction d; cbn [DecimalString.NilEmpty.string_of_uint];
    [reflexivity|..];
    cbn [digits_from Pos.of_uint];
    match goal with
    | |- context [Ascii.eqb ?c "_"%char] =>
        change (Ascii.eqb c "_"%char) with false; cbv iota
    end;
    match goal with
    | |- context [digit ?c] =>
        let v := eval vm_compute in (digit c) in
        change (digit c) with v; cbv iota
    end;
    [exact IHd|..]; cbn [Z.mul Z.add Z.of_N]; apply digits_from_acc.
Qed.

Lemma unsigned_int_numeral (d : Decimal.uint) :
  d <> Decimal.Nil ->
  unsigned_int (DecimalString.NilEmpty.string_of_uint d)
  = Some (Z.of_N (Pos.of_uint d)).
Proof.
  intros Hd. rewrite <- digits_from_zero.
  destruct d; [contradiction|..]; reflexivity.
Qed.

Section Stripping.
Variable space : ascii -> bool.

Lemma lstrip_by_solid (s : string) :
  all_chars (fun c => negb (space c)) s = true -> lstrip_by space s = s.
Proof.
  destruct s as [|c s]; [reflexivity|]. simpl.
  destruct (space c); [discriminate|reflexivity].
Qed.

Lemma rstrip_by_solid (s : string) :
  all_chars (fun c => negb (space c)) s = true -> rstrip_by space s = s.
Proof.
  induction s as [|c s IH]; [reflexivity|]. simpl. intros H.
  apply andb_true_iff in H. destruct H as [Hc Hs].
  rewrite (IH Hs). destruct s; [|reflexivity].
  now destruct (space c).
Qed.

Lemma strip_by_solid (s : string) :
  all_chars (fun c => negb (space c)) s = true -> strip_by space s = s.
Proof.
  intros H. unfold strip_by. rewrite (lstrip_by_solid s H).
  now apply rstrip_by_solid.
Qed.

Lemma lstrip_by_blank (s : string) :
  all_chars space s = true -> lstrip_by space s = EmptyString.
Proof.
  induction s as [|c s IH]; [reflexivity|]. simpl. intros H.
  apply andb_true_iff in H. destruct H as [Hc Hs]. rewrite Hc. exact (IH Hs).
Qed.

Lemma lstrip_by_blank_app (w s : string) :
  all_chars space w = true -> lstrip_by space (w ++ s) = lstrip_by space s.
Proof.
  induction w as [|c w IH]; [reflexivity|]. simpl. intros H.
  apply andb_true_iff in H. destruct H as [Hc Hw]. rewrite Hc. exact (IH Hw).
Qed.

Lemma rstrip_by_blank (s : string) :
  all_chars space s = true -> rstrip_by space s = EmptyString.
Proof.
  induction s as [|c s IH]; [reflexivity|]. simpl. intros H.
  apply andb_true_iff in H. destruct H as [Hc Hs]. now rewrite (IH Hs), Hc.
Qed.

Lemma rstrip_by_app_blank (s w : string) :
  all_chars space w = true -> rstrip_by space (s ++ w) = rstrip_by space s.
Proof.
  intros Hw. induction s as [|c s IH].
  - simpl. now rewrite rstrip_by_blank.
  - change (String c s ++ w) with (String c (s ++ w)).
    cbn [rstrip_by]. now rewrite IH.
Qed.

Lemma strip_by_padded (w1 body w2 : string) :
  all_chars space w1 = true -> all_chars space w2 = true ->
  all_chars (fun c => negb (space c)) body = true ->
  strip_by space (w1 ++ body ++ w2) = body.
Proof.
  intros H1 H2 Hb. unfold strip_by. rewrite (lstrip_by_blank_app w1 _ H1).
  destruct body as [|c body].
  - change (EmptyString ++ w2) with w2.
    now rewrite (lstrip_by_blank w2 H2).
  - assert (E : lstrip_by space (String c body ++ w2) = String c body ++ w2).
    { cbn [all_chars] in Hb. apply andb_true_iff in Hb. destruct Hb as [Hc _].
      change (String c body ++ w2) with (String c (body ++ w2)).
      cbn [lstrip_by]. now destruct (space c). }
    rewrite E, (rstrip_by_app_blank _ w2 H2). now apply rstrip_by_solid.
Qed.

Lemma lstrip_by_head (s : string) (c : ascii) (t : string) :
  lstrip_by space s = String c t -> space c = false.
Proof.
  induction s as [|d s IH]; simpl; [discriminate|].
  destruct (space d) eqn:Ed; [exact IH|]. now intros [= <- _].
Qed.

Lemma lstrip_by_idem (s : string) :
  lstrip_by space (lstrip_by space s) = lstrip_by space s.
Proof.
  induction s as [|c s IH]; [reflexivity|]. simpl.
  destruct (space c) eqn:Ec; [exact IH|]. simpl. now rewrite Ec.
Qed.

Lemma rstrip_by_head (c : ascii) (t : string) :
  space c = false -> exists t', rstrip_by space (String c t) = String c t'.
Proof.
  intros Hc. cbn [rstrip_by]. rewrite Hc.
  destruct (rstrip_by space t); eexists; reflexivity.
Qed.

Lemma blank_lstrip_by (s : string) :
  blank s = true -> blank (lstrip_by space s) = true.
Proof.
  induction s as [|c s IH]; [reflexivity|]. intros H. simpl.
  destruct (space c); [|exact H].
  simpl in H. apply andb_true_iff in H. now apply IH.
Qed.

End Stripping.

Lemma numeral_solid (d : Decimal.uint) :
  all_chars (fun c => negb (is_int_space c))
            (DecimalString.NilEmpty.string_of_uint d) = true.
Proof. induction d; simpl; [reflexivity|..]; exact IHd. Qed.

Lemma int_decimal (n : Z) : int (decimal n) = Ok n.
Proof.
  unfold decimal, DecimalString.NilZero.string_of_int.
  destruct n as [|p|p]; [reflexivity| |]; cbn [Z.to_int].
  - pose proof (DecimalPos.Unsigned.to_uint_nonnil p) as Hnil.
    assert (E : DecimalString.NilZero.string_of_uint (Pos.to_uint p)
                = DecimalString.NilEmpty.string_of_uint (Pos.to_uint p)).
    { unfold DecimalString.NilZero.string_of_uint.
      destruct (Pos.to_uint p); [contradiction|..]; reflexivity. }
    rewrite E. unfold int.
    rewrite (strip_by_solid _ _ (numeral_solid _)).
    assert (U := unsigned_int_numeral (Pos.to_uint p) Hnil).
    rewrite DecimalPos.Unsigned.of_to in U.
    destruct (Pos.to_uint p); [contradiction|..];
      cbn [DecimalString.NilEmpty.string_of_uint] in *; rewrite U; reflexivity.
  - pose proof (DecimalPos.Unsigned.to_uint_nonnil p) as Hnil.
    assert (E : DecimalString.NilZero.string_of_uint (Pos.to_uint p)
                = DecimalString.NilEmpty.string_of_uint (Pos.to_uint p)).
    { unfold DecimalString.NilZero.string_of_uint.
      destruct (Pos.to_uint p); [contradiction|..]; reflexivity. }
    rewrite E. unfold int.
    assert (S : all_chars (fun c => negb (is_int_space c))
                  (String "-" (DecimalString.NilEmpty.string_of_uint
                                 (Pos.to_uint p))) = true).
    { cbn [all_chars]. now rewrite numeral_solid. }
    rewrite (strip_by_solid _ _ S).
    rewrite (unsigned_int_numeral (Pos.to_uint p) Hnil).
    now rewrite DecimalPos.Unsigned.of_to.
Qed.

Lemma decimal_not_empty (n : Z) : decimal n <> EmptyString.
Proof.
  intros E. pose proof (int_decimal n) as H. rewrite E in H. discriminate H.
Qed.

(** X1. A cell holding the decimal numeral of an integer, as [str]
    writes it, decodes to that integer; so does the cell of a row of a
    [DictReader] under its column. *)
Theorem in_t_decimal (n : Z) :
  in_t (Some (decimal n)) = Ok n
  /\ forall (r : row) (key : string),
       getitem r key = Ok (Some (decimal n)) -> in_t_col r key = Ok n.
Proof.
  assert (H : in_t (Some (decimal n)) = Ok n).
  { unfold in_t. pose proof (decimal_not_empty n) as Hne.
    destruct (decimal n) eqn:E; [contradiction|].
    rewrite <- E. apply int_decimal. }
  split; [exact H|].
  intros r key Hget. unfold in_t_col. now rewrite Hget.
Qed.

Lemma decimal_solid (n : Z) :
  all_chars (fun c => negb (is_int_space c)) (decimal n) = true.
Proof.
  unfold decimal, DecimalString.NilZero.string_of_int,
    DecimalString.NilZero.string_of_uint.
  destruct (Z.to_int n) as [d|d]; destruct d;
    cbn [all_chars]; try reflexivity;
    try (apply (numeral_solid (Decimal.D0 _)));
    match goal with
    | |- context [DecimalString.NilEmpty.string_of_uint ?u] =>
        try exact (numeral_solid u)
    end.
Qed.

Lemma int_lstrip (s : string) : int s = int (lstrip_by is_int_space s).
Proof. unfold int, strip_by. now rewrite lstrip_by_idem. Qed.

Lemma int_of_separator (c : ascii) (t : string) :
  is_space c = true -> is_int_space c = false ->
  int (String c t) = Raise ValueError.
Proof.
  intros Hsp Hint. unfold int, strip_by. cbn [lstrip_by]. rewrite Hint.
  destruct (rstrip_by_head is_int_space c t Hint) as [t' ->].
  destruct c as [[] [] [] [] [] [] [] []];
    vm_compute in Hsp; vm_compute in Hint;
    try discriminate Hsp; try discriminate Hint; reflexivity.
Qed.

Lemma int_blank_raises (s : string) :
  blank s = true -> int s = Raise ValueError.
Proof.
  intros Hb. rewrite int_lstrip.
  pose proof (blank_lstrip_by is_int_space s Hb) as Hb'.
  destruct (lstrip_by is_int_space s) as [|c t] eqn:E; [reflexivity|].
  cbn [blank] in Hb'. apply andb_true_iff in Hb'. destruct Hb' as [Hc _].
  exact (int_of_separator c t Hc (lstrip_by_head is_int_space s c t E)).
Qed.

(** X2. An absent cell and an empty cell decode to 0, but a cell that is
    not empty and holds only whitespace does not: [in_t] passes it to
    [int], which raises [ValueError]. *)
Theorem in_t_blank_cell (s : string) :
  s <> EmptyString ->
  blank s = true ->
  in_t None = Ok 0
  /\ in_t (Some EmptyString) = Ok 0
  /\ in_t (Some s) = Raise ValueError.
Proof.
  intros Hs Hb. split; [reflexivity|]. split; [reflexivity|].
  unfold in_t. destruct s as [|c s]; [contradiction|].
  now apply int_blank_raises.
Qed.

Lemma in_t_blank_cell_witness :
  in_t None = Ok 0
  /\ in_t (Some EmptyString) = Ok 0
  /\ in_t (Some "  ") = Raise ValueError.
Proof.
  apply (in_t_blank_cell "  "); [discriminate|reflexivity].
Defined.

(** X3. The whitespace [int] skips around a numeral is ignored: a cell
    made of such characters (tab, line feed, vertical tab, form feed,
    carriage return, space, next line, no-break space), the decimal
    numeral of an integer, and such characters again decodes to that
    integer.  A separator 28 to 31, which [str.strip] would take off,
    is not skipped: in front of the numeral it makes [in_t] raise
    [ValueError]. *)
Theorem in_t_padded_decimal (w1 w2 : string) (n : Z) :
  int_blank w1 = true ->
  int_blank w2 = true ->
  in_t (Some (w1 ++ decimal n ++ w2)) = Ok n
  /\ forall c, is_space c = true -> is_int_space c = false ->
                in_t (Some (String c (decimal n))) = Raise ValueError.
Proof.
  intros H1 H2. split.
  - assert (Hint : int (w1 ++ decimal n ++ w2) = Ok n).
    { unfold int.
      rewrite (strip_by_padded is_int_space w1 _ w2 H1 H2 (decimal_solid n)).
      rewrite <- (strip_by_solid is_int_space _ (decimal_solid n)).
      apply int_decimal. }
    destruct (w1 ++ decimal n ++ w2) eqn:E; [discriminate Hint|].
    exact Hint.
  - intros c Hsp Hint. cbn [in_t]. now apply int_of_separator.
Qed.

Lemma in_t_padded_decimal_witness :
  in_t (Some (" " ++ decimal (-42) ++ nl)) = Ok (-42)
  /\ forall c, is_space c = true -> is_int_space c = false ->
                in_t (Some (String c (decimal (-42)))) = Raise ValueError.
Proof. apply in_t_padded_decimal; reflexivity. Defined.

(** *** Rows of the [DictReader] *)

Lemma dict_get_set_string {V : Type} (k k' : string) (v : V)
      (d : list (string * V)) :
  dict_get String.eqb k' (dict_set String.eqb k v d)
  = if String.eqb k' k then Some v else dict_get String.eqb k' d.
Proof.
  induction d as [|[k0 v0] d IH]; simpl.
  - reflexivity.
  - destruct (String.eqb_spec k k0) as [->|Hk]; simpl.
    + destruct (String.eqb_spec k' k0); reflexivity.
    + rewrite IH. destruct (String.eqb_spec k' k0) as [->|_]; [|reflexivity].
      destruct (String.eqb_spec k0 k) as [E|_]; [now elim Hk|reflexivity].
Qed.

Lemma In_firstn {A} (n : nat) (l : list A) (x : A) :
  In x (firstn n l) -> In x l.
Proof.
  intros H. rewrite <- (firstn_skipn n l). apply in_or_app. now left.
Qed.

Lemma In_skipn {A} (n : nat) (l : list A) (x : A) :
  In x (skipn n l) -> In x l.
Proof.
  intros H. rewrite <- (firstn_skipn n l). apply in_or_app. now right.
Qed.

Lemma zip_into_other (names cells : list string) (d : row) (k : string) :
  ~ In k (firstn (List.length cells) names) ->
  dict_get String.eqb k (zip_into d names cells) = dict_get String.eqb k d.
Proof.
  revert cells d. induction names as [|n names IH]; intros cells d Hk.
  - reflexivity.
  - destruct cells as [|c cells]; [reflexivity|].
    cbn [zip_into]. cbn [List.length firstn] in Hk.
    rewrite IH.
    + rewrite dict_get_set_string.
      destruct (String.eqb_spec k n) as [->|_]; [|reflexivity].
      elim Hk. now left.
    + intros Hin. apply Hk. now right.
Qed.

Lemma zip_into_cell (names cells : list string) (d : row) (i : nat)
      (k c : string) :
  NoDup names ->
  nth_error names i = Some k ->
  nth_error cells i = Some c ->
  dict_get String.eqb k (zip_into d names cells) = Some (Some c).
Proof.
  revert cells d i. induction names as [|n names IH];
    intros cells d i Hnd Hk Hc.
  - now destruct i.
  - destruct cells as [|c0 cells]; [now destruct i|].
    inversion Hnd as [|x l Hnotin Hnd']; subst. cbn [zip_into].
    destruct i as [|i]; cbn in Hk, Hc.
    + inversion Hk; inversion Hc; subst.
      rewrite zip_into_other.
      * rewrite dict_get_set_string. now rewrite String.eqb_refl.
      * intros Hin. apply Hnotin. revert Hin. apply In_firstn.
    + now apply (IH cells _ i).
Qed.

Lemma fill_None_get (rest : list string) (d : row) (k : string) :
  dict_get String.eqb k
    (fold_left (fun d k' => dict_set String.eqb k' None d) rest d)
  = if existsb (String.eqb k) rest then Some None
    else dict_get String.eqb k d.
Proof.
  revert d. induction rest as [|x rest IH]; intros d; [reflexivity|].
  cbn [fold_left existsb]. rewrite IH, dict_get_set_string.
  destruct (String.eqb k x); simpl; [|reflexivity].
  now destruct (existsb (String.eqb k) rest).
Qed.

Lemma existsb_eqb_In (k : string) (l : list string) :
  existsb (String.eqb k) l = true <-> In k l.
Proof.
  rewrite existsb_exists. split.
  - intros (x & Hin & E). apply String.eqb_eq in E. now subst.
  - intros Hin. exists k. split; [exact Hin|apply String.eqb_refl].
Qed.

Lemma NoDup_index (names : list string) (i n : nat) (k : string) :
  NoDup names ->
  nth_error names i = Some k ->
  (In k (skipn n names) <-> (n <= i)%nat)
  /\ (In k (firstn n names) <-> (i < n)%nat).
Proof.
  intros Hnd Hk.
  assert (Hi : (i < List.length names)%nat).
  { apply nth_error_Some. now rewrite Hk. }
  assert (Huniq : forall j, nth_error names j = Some k -> j = i).
  { intros j Hj. symmetry.
    apply (proj1 (NoDup_nth_error names) Hnd i j Hi). now rewrite Hk, Hj. }
  split; split.
  - intros Hin. apply In_nth_error in Hin. destruct Hin as (j & Hj).
    rewrite nth_error_skipn in Hj. apply Huniq in Hj. lia.
  - intros Hle. apply (nth_error_In _ (i - n)).
    rewrite nth_error_skipn. now replace (n + (i - n))%nat with i by lia.
  - intros Hin. apply In_nth_error in Hin. destruct Hin as (j & Hj).
    assert (Hjn : (j < n)%nat).
    { assert (Hlt : (j < List.length (firstn n names))%nat).
      { apply nth_error_Some. now rewrite Hj. }
      rewrite length_firstn in Hlt. lia. }
    rewrite nth_error_firstn in Hj.
    destruct (Nat.ltb_spec j n); [|lia].
    apply Huniq in Hj. lia.
  - intros Hlt. apply (nth_error_In _ i).
    rewrite nth_error_firstn. destruct (Nat.ltb_spec i n); [exact Hk|lia].
Qed.

Lemma make_row_get (fieldnames cells : list string) (i : nat) (k : string) :
  NoDup fieldnames ->
  nth_error fieldnames i = Some k ->
  dict_get String.eqb k (make_row fieldnames cells) = Some (nth_error cells i).
Proof.
  intros Hnd Hk. unfold make_row. rewrite fill_None_get.
  destruct (NoDup_index fieldnames i (List.length cells) k Hnd Hk)
    as [Hskip Hfirst].
  destruct (existsb (String.eqb k) (skipn (List.length cells) fieldnames))
    eqn:Ex.
  - apply existsb_eqb_In, Hskip in Ex.
    f_equal. symmetry. now apply nth_error_None.
  - assert (Hlt : (i < List.length cells)%nat).
    { destruct (Nat.lt_ge_cases i (List.length cells)) as [H|H]; [exact H|].
      apply Hskip, existsb_eqb_In in H. congruence. }
    destruct (nth_error cells i) as [c|] eqn:Ec.
    + now apply (zip_into_cell fieldnames cells [] i k c).
    + apply nth_error_None in Ec. lia.
Qed.

Lemma make_row_absent (fieldnames cells : list string) (k : string) :
  ~ In k fieldnames ->
  dict_get String.eqb k (make_row fieldnames cells) = None.
Proof.
  intros Hk. unfold make_row. rewrite fill_None_get.
  destruct (existsb (String.eqb k) (skipn (List.length cells) fieldnames))
    eqn:Ex.
  - apply existsb_eqb_In in Ex. elim Hk. revert Ex. apply In_skipn.
  - rewrite zip_into_other; [reflexivity|].
    intros Hin. apply Hk. revert Hin. apply In_firstn.
Qed.

(** X4. In a row the [DictReader] makes from distinct field names,
    [row[name]] is the cell at the position of the name: the i-th cell
    of the record, or [None] when the record is shorter, and then
    [in_t] gives 0.  A name that is not a field name raises [KeyError]:
    a column absent from the header does not default to 0. *)
Theorem row_access (fieldnames cells : list string) :
  NoDup fieldnames ->
  (forall i k,
     nth_error fieldnames i = Some k ->
     getitem (make_row fieldnames cells) k = Ok (nth_error cells i))
  /\ (forall i k,
        nth_error fieldnames i = Some k ->
        (List.length cells <= i)%nat ->
        in_t_col (make_row fieldnames cells) k = Ok 0)
  /\ (forall k,
        ~ In k fieldnames ->
        in_t_col (make_row fieldnames cells) k = Raise (KeyError k)).
Proof.
  intros Hnd. split; [|split].
  - intros i k Hk. unfold getitem.
    now rewrite (make_row_get fieldnames cells i k Hnd Hk).
  - intros i k Hk Hlen. unfold in_t_col, getitem.
    rewrite (make_row_get fieldnames cells i k Hnd Hk).
    apply nth_error_None in Hlen. now rewrite Hlen.
  - intros k Hk. unfold in_t_col, getitem.
    now rewrite (make_row_absent fieldnames cells k Hk).
Qed.

Lemma row_access_witness :
  getitem (make_row ["read"; "pids.current"; "pids.max"] ["100"; "3"])
          "pids.current" = Ok (Some "3")
  /\ in_t_col (make_row ["read"; "pids.current"; "pids.max"] ["100"; "3"])
              "pids.max" = Ok 0
  /\ in_t_col (make_row ["read"; "pids.current"; "pids.max"] ["100"; "3"])
              "memory.swap" = Raise (KeyError "memory.swap").
Proof.
  assert (Hnd : NoDup ["read"; "pids.current"; "pids.max"]).
  { repeat constructor; simpl; intuition discriminate. }
  destruct (row_access ["read"; "pids.current"; "pids.max"] ["100"; "3"] Hnd)
    as (H1 & H2 & H3).
  split; [exact (H1 1%nat "pids.current" eq_refl)|].
  split; [apply (H2 2%nat "pids.max" eq_refl); simpl; lia|].
  apply H3. simpl. intuition discriminate.
Defined.

(** *** Decoding the columns *)

Lemma int_raises (s : string) (e : exn) : int s = Raise e -> e = ValueError.
Proof.
  unfold int.
  match goal with
  | |- (match ?b with Some _ => _ | None => _ end) = _ -> _ => destruct b
  end; [discriminate|now intros [= <-]].
Qed.

Lemma in_t_raises (v : option string) (e : exn) :
  in_t v = Raise e -> e = ValueError.
Proof.
  destruct v as [[|c s]|]; simpl; try discriminate. apply int_raises.
Qed.

Lemma in_t_col_raises (r : row) (col : string) (e : exn) :
  in_t_col r col = Raise e ->
  (e = KeyError col /\ dict_get String.eqb col r = None)
  \/ (e = ValueError /\ exists s, dict_get String.eqb col r = Some (Some s)
                                  /\ s <> EmptyString).
Proof.
  unfold in_t_col, getitem.
  destruct (dict_get String.eqb col r) as [v|]; cbn [bind].
  - intros H. right. split; [exact (in_t_raises v e H)|].
    destruct v as [[|c s]|]; try discriminate H.
    exists (String c s). split; [reflexivity|discriminate].
  - intros [= <-]. now left.
Qed.

Ltac first_failure H :=
  repeat match type of H with
         | bind (in_t_col ?r ?c) _ = Raise _ =>
             let E := fresh "E" in
             destruct (in_t_col r c) eqn:E; cbn [bind] in H;
             [|inversion H; subst; exists c; split;
               [cbn; tauto|exact E]]
         end.

Lemma Memory_init_failure (r : row) (e : exn) :
  Memory_init r = Raise e ->
  exists col, In col memory_columns /\ in_t_col r col = Raise e.
Proof.
  intros H. unfold Memory_init in H. first_failure H. discriminate H.
Qed.

(** X5. [Memory] decodes exactly when each of its 21 columns decodes,
    and then each field holds the value of its column.  When it fails,
    it fails with the exception of one of those columns; a [KeyError]
    names a memory column that the row does not have, and the only
    other exception is the [ValueError] of a cell that is not empty. *)
Theorem Memory_columns (r : row) :
  (forall m,
     Memory_init r = Ok m <->
     Forall2 (fun col v => in_t_col r col = Ok v)
             memory_columns (memory_values m))
  /\ (forall e,
        Memory_init r = Raise e ->
        exists col, In col memory_columns /\ in_t_col r col = Raise e)
  /\ (forall e,
        Memory_init r = Raise e ->
        (exists col, e = KeyError col /\ In col memory_columns
                     /\ dict_get String.eqb col r = None)
        \/ e = ValueError).
Proof.
  pose proof (Memory_init_failure r) as Hfail.
  split; [|split; [exact Hfail|]].
  - intros m. split.
    + intros H. unfold Memory_init in H. step_binds H.
      inversion H; subst. cbn. repeat constructor; assumption.
    + intros H. unfold memory_columns, memory_values in H.
      repeat match goal with
             | H : Forall2 _ (_ :: _) (_ :: _) |- _ =>
                 inversion H; clear H; subst
             end.
      unfold Memory_init.
      repeat match goal with
             | H : in_t_col r _ = Ok _ |- _ => rewrite H; clear H; cbn [bind]
             end.
      now destruct m.
  - intros e H. destruct (Hfail e H) as (col & Hin & Hcol).
    destruct (in_t_col_raises r col e Hcol) as [[-> Hnone]|[-> _]].
    + left. now exists col.
    + now right.
Qed.

Lemma raises_only_bind {A B} (P : exn -> Prop) (m : result A)
      (k : A -> result B) :
  raises_only P m -> (forall a, raises_only P (k a)) ->
  raises_only P (bind m k).
Proof. destruct m; simpl; auto. Qed.

Lemma raises_only_traverse {A B} (P : exn -> Prop) (f : A -> result B)
      (xs : list A) :
  (forall x, raises_only P (f x)) -> raises_only P (traverse f xs).
Proof.
  intros Hf. induction xs as [|x xs IH]; simpl; [exact I|].
  apply raises_only_bind; [apply Hf|]. intros y.
  apply raises_only_bind; [exact IH|]. intros ys. exact I.
Qed.

Lemma in_t_row_error (r : row) (v : option string) :
  raises_only (row_error r) (in_t v).
Proof.
  destruct (in_t v) as [n|e] eqn:E; [exact I|].
  now rewrite (in_t_raises v e E).
Qed.

Lemma getitem_row_error (r : row) (key : string) :
  raises_only (row_error r) (getitem r key).
Proof.
  unfold getitem. destruct (dict_get String.eqb key r) eqn:E; simpl;
    [exact I|exact E].
Qed.

Lemma in_t_col_row_error (r : row) (key : string) :
  raises_only (row_error r) (in_t_col r key).
Proof.
  unfold in_t_col. apply raises_only_bind; [apply getitem_row_error|].
  intros v. apply in_t_row_error.
Qed.

Lemma split_attr_row_error (r : row) (v : option string) (sep : ascii) :
  raises_only (row_error r) (split_attr v sep).
Proof. now destruct v. Qed.

Ltac row_errors :=
  repeat (apply raises_only_bind;
          [first [apply in_t_col_row_error | apply getitem_row_error
                 | apply in_t_row_error | apply split_attr_row_error
                 | idtac]
          |intros ?]);
  try exact I.

Lemma BlkioEntry1_row_error (r : row) (a : arg) :
  raises_only (row_error r) (BlkioEntry1_init a).
Proof.
  destruct a as [s|r']; [|exact I]. unfold BlkioEntry1_init.
  destruct (split " " s) as [|majmin [|o [|v [|]]]]; try exact I.
  destruct (split ":" majmin) as [|mj [|mn [|]]]; try exact I.
  row_errors.
Qed.

Lemma BlkioEntry2_row_error (r : row) :
  raises_only (row_error r) (BlkioEntry2_init (Row r))
  /\ forall s, raises_only (row_error r) (BlkioEntry2_init (Str s)).
Proof.
  split; [|intros s; exact I].
  unfold BlkioEntry2_init. row_errors.
  apply raises_only_traverse. intros cpu. apply in_t_row_error.
Qed.

Lemma call_row_error (r : row) (name : string) (binding : option class) :
  raises_only (row_error r) (call name binding (Row r))
  /\ forall s, raises_only (row_error r) (call name binding (Str s)).
Proof.
  destruct binding as [c|]; [|split; [exact I|intros s; exact I]].
  unfold call, instantiate. destruct c; split; try intros s;
    (apply raises_only_bind; [|intros ?; exact I]).
  - apply BlkioEntry1_row_error.
  - apply BlkioEntry1_row_error.
  - apply (proj1 (BlkioEntry2_row_error r)).
  - apply (proj2 (BlkioEntry2_row_error r)).
Qed.

Lemma Memory_row_error (r : row) : raises_only (row_error r) (Memory_init r).
Proof. unfold Memory_init. row_errors. Qed.

Lemma PidsStats_row_error (r : row) :
  raises_only (row_error r) (PidsStats_init r).
Proof.
  unfold PidsStats_init. row_errors.
  destruct (is_max _); [exact I|apply in_t_col_row_error].
Qed.

Lemma parse_blkio_row_error (G : Globals) (r : row) (raw : option string) :
  raises_only (row_error r) (parse_blkio G raw).
Proof.
  unfold parse_blkio. row_errors.
  apply raises_only_traverse. intros entry. apply call_row_error.
Qed.

Lemma Blkio_row_error (G : Globals) (r : row) :
  raises_only (row_error r) (Blkio_init G r).
Proof.
  unfold Blkio_init, parse_blkio_col.
  repeat (apply raises_only_bind;
          [apply raises_only_bind;
           [apply getitem_row_error|intros ?; apply parse_blkio_row_error]
          |intros ?]).
  exact I.
Qed.

Lemma LogEntry_fields_row_error (G : Globals) (r : row) :
  raises_only (row_error r) (LogEntry_fields G r).
Proof.
  unfold LogEntry_fields.
  apply raises_only_bind; [apply in_t_col_row_error|intros ?].
  apply raises_only_bind; [apply call_row_error|intros ?].
  apply raises_only_bind; [apply Memory_row_error|intros ?].
  apply raises_only_bind; [apply PidsStats_row_error|intros ?].
  apply raises_only_bind; [apply Blkio_row_error|intros ?].
  exact I.
Qed.

Lemma LogEntry_init_row_error (G : Globals) (r : row) (preread : option Z)
      (entries : option OrderedDict) :
  raises_only (row_error r) (LogEntry_init G r preread entries).
Proof.
  unfold LogEntry_init. apply raises_only_bind;
    [apply LogEntry_fields_row_error|].
  intros [[[[n c] m] p] b]. exact I.
Qed.

(** X6. Whatever the module's names are bound to, building a
    [LogEntry] from a row either succeeds or raises one of [KeyError],
    [ValueError], [NameError], [TypeError], [AttributeError], and a
    [KeyError] always names a column the row does not have.  It never
    raises [csv.Error], the one exception [load_file] handles. *)
Theorem LogEntry_errors (G : Globals) (r : row) (preread : option Z)
        (entries : option OrderedDict) :
  raises_only (row_error r) (LogEntry_init G r preread entries)
  /\ (forall k, LogEntry_init G r preread entries = Raise (KeyError k) ->
                getitem r k = Raise (KeyError k))
  /\ (forall msg, LogEntry_init G r preread entries <> Raise (CsvError msg)).
Proof.
  pose proof (LogEntry_init_row_error G r preread entries) as H.
  split; [exact H|]. split.
  - intros k E. rewrite E in H. simpl in H. unfold getitem. now rewrite H.
  - intros msg E. rewrite E in H. exact H.
Qed.

(** *** What [load_file] prints *)

Lemma load_lines_inv (G : Globals) (Metadata : Type)
      (get_data : string -> result Metadata) (csvfile : list string)
      (out : stdout) (entries : OrderedDict) (metadata : Metadata) :
  load_lines G Metadata get_data csvfile = (out, Ok (entries, metadata)) ->
  exists rows, read_rows G rows [] None = (out, Ok entries).
Proof.
  unfold load_lines, load_tabular. intros H.
  destruct csvfile as [|first lines]; [discriminate H|].
  destruct (read_yaml_lines lines) as [[ys tabular]|]; [|discriminate H].
  destruct (get_data (join nl ys)); [|discriminate H].
  destruct (next (DictReader tabular)) as [[skipped rows]|]; [|discriminate H].
  exists rows.
  destruct (read_rows G rows [] None) as [o [d|]]; inversion H; subst.
  reflexivity.
Qed.

Lemma read_rows_output (G : Globals) (rows : stream row) :
  forall entries preread,
    let '(out, res) := read_rows G rows entries preread in
    out = []
    \/ exists msg,
         out = [msg; "An error ocurred. continuing..." ++ nl]
         /\ is_ok res = true /\ failure rows = Some msg.
Proof.
  induction rows as [|msg|r rest IH]; intros entries preread;
    cbn [read_rows failure].
  - now left.
  - right. now exists msg.
  - pose proof (LogEntry_fields_row_error G r) as Hr.
    unfold LogEntry_init.
    destruct (LogEntry_fields G r) as [[[[[n c] m] p] b]|e]; cbn [bind].
    + apply IH.
    + destruct e; solve [now left | elim Hr].
Qed.

(** X8. [load_file] prints only to report a [csv.Error] of the tabular
    reader: it prints either nothing, or that error's message followed
    by [An error ocurred. continuing...], and in that case it returns a
    result.  So when [load_file] raises, it has printed nothing, and a
    row that fails to decode is never reported. *)
Theorem load_file_output
        (G : Globals) (Metadata : Type) (get_data : string -> result Metadata)
        (yaml_str : string) (tabular : list string) :
  let '(out, res) := load_tabular G Metadata get_data yaml_str tabular in
  out = []
  \/ exists msg,
       out = [msg; "An error ocurred. continuing..." ++ nl]
       /\ is_ok res = true
       /\ failure (DictReader tabular) = Some msg.
Proof.
  unfold load_tabular.
  destruct (get_data yaml_str) as [metadata|]; [|now left].
  destruct (DictReader tabular) as [|msg|skipped rows]; cbn [next];
    try (now left).
  pose proof (read_rows_output G rows [] None) as H. cbn [failure].
  destruct (read_rows G rows [] None) as [out [entries|e]].
  - destruct H as [->|(msg & -> & _ & Hf)]; [now left|].
    right. exists msg. repeat split. exact Hf.
  - destruct H as [->|(msg & _ & Hok & _)]; [now left|discriminate Hok].
Qed.

(** *** The header, read backwards *)

Lemma read_yaml_lines_ok_inv (lines ys rest : list string) :
  read_yaml_lines lines = Ok (ys, rest) ->
  exists d, lines = (ys ++ d :: rest)%list
            /\ startswith d "---" = true
            /\ Forall (fun y => startswith y "---" = false) ys.
Proof.
  revert ys. induction lines as [|line lines IH]; intros ys H;
    cbn [read_yaml_lines] in H; [discriminate H|].
  destruct (startswith line "---") eqn:Ed.
  - inversion H; subst. exists line.
    split; [reflexivity|]. split; [exact Ed|constructor].
  - destruct (read_yaml_lines lines) as [[ys' rest']|] eqn:E;
      cbn [bind] in H; [|discriminate H].
    inversion H; subst.
    destruct (IH ys' eq_refl) as (d & -> & Hd & Hys).
    exists d. split; [reflexivity|]. split; [exact Hd|now constructor].
Qed.

Lemma read_yaml_lines_raise_inv (lines : list string) (e : exn) :
  read_yaml_lines lines = Raise e ->
  e = StopIteration /\ Forall (fun y => startswith y "---" = false) lines.
Proof.
  induction lines as [|line lines IH]; intros H; cbn [read_yaml_lines] in H.
  - inversion H. split; constructor.
  - destruct (startswith line "---") eqn:Ed; [discriminate H|].
    destruct (read_yaml_lines lines) as [[ys' rest']|e'] eqn:E;
      cbn [bind] in H; [discriminate H|].
    inversion H; subst. destruct (IH eq_refl) as [-> Hall].
    split; [reflexivity|now constructor].
Qed.

(** X10. The header of a file ends at the first line, after the
    discarded one, that starts with [---]: [read_yaml_lines] returns
    the lines before it and the lines after it exactly when there is
    such a line, and otherwise raises [StopIteration] and nothing
    else.  A metadata line that itself starts with [---] therefore
    ends the header early. *)
Theorem header_ends_at_first_delimiter (lines : list string) :
  (forall ys rest,
     read_yaml_lines lines = Ok (ys, rest) <->
     exists d, lines = (ys ++ d :: rest)%list
               /\ startswith d "---" = true
               /\ Forall (fun y => startswith y "---" = false) ys)
  /\ (forall e,
        read_yaml_lines lines = Raise e <->
        e = StopIteration
        /\ Forall (fun y => startswith y "---" = false) lines).
Proof.
  split.
  - intros ys rest. split; [apply read_yaml_lines_ok_inv|].
    intros (d & -> & Hd & Hys).
    now apply read_yaml_lines_until_delimiter.
  - intros e. split; [apply read_yaml_lines_raise_inv|].
    intros [-> Hall]. now apply read_yaml_lines_without_delimiter.
Qed.

(** *** The batch *)

Section BatchResults.
Variable G : Globals.
Variable Metadata : Type.
Variable get_data : string -> result Metadata.
Variable fs : string -> option (list string).
Variable relpath : string -> result string.

Let load := load_file G Metadata get_data fs.
Let parse := parse_files G Metadata get_data fs relpath.
Let parses := Samples.parses G Metadata get_data fs relpath.

Lemma parse_files_all (files : list string) :
  Forall parses files ->
  forall parsed, exists out parsed',
    parse parsed files = (out, Ok parsed')
    /\ dict_keys parsed'
       = (dict_keys parsed ++ first_files (dict_keys parsed) files)%list
    /\ forall f,
         dict_get String.eqb f parsed'
         = if existsb (String.eqb f) files
           then match snd (load f) with
                | Ok log_data => Some log_data
                | Raise _ => None
                end
           else dict_get String.eqb f parsed.
Proof.
  induction 1 as [|file files [Hrel Hload] _ IH]; intros parsed.
  - exists [], parsed. split; [reflexivity|].
    split; [cbn; now rewrite app_nil_r|reflexivity].
  - unfold load in Hload |- *.
    destruct (relpath file) as [relative|] eqn:Erel; [|discriminate].
    destruct (load_file G Metadata get_data fs file) as [o [log_data|]] eqn:El;
      [|discriminate].
    destruct (IH (dict_set String.eqb file log_data parsed))
      as (out' & parsed' & Hp & Hkeys & Hget).
    exists (("Parsing log data from " ++ relative ++ "... ")%string
              :: (o ++ "done" :: out')%list), parsed'.
    unfold parse in *. cbn [parse_files]. rewrite Erel, El, Hp.
    split; [reflexivity|]. split.
    + rewrite Hkeys. cbn [first_files].
      assert (Hk : dict_keys (dict_set String.eqb file log_data parsed)
                   = if existsb (String.eqb file) (dict_keys parsed)
                     then dict_keys parsed
                     else (dict_keys parsed ++ [file])%list).
      { clear. unfold dict_keys.
        induction parsed as [|[k0 v0] d IHd]; cbn [dict_set map existsb fst].
        - reflexivity.
        - destruct (String.eqb file k0); cbn [map fst orb]; [reflexivity|].
          rewrite IHd. now destruct (existsb (String.eqb file) (map fst d)). }
      rewrite Hk.
      destruct (existsb (String.eqb file) (dict_keys parsed));
        [reflexivity|now rewrite <- app_assoc].
    + intros f. rewrite Hget. cbn [existsb].
      rewrite dict_get_set_string.
      destruct (String.eqb_spec f file) as [->|_]; cbn [orb].
      * unfold load. rewrite El. cbn [snd].
        now destruct (existsb (String.eqb file) files).
      * reflexivity.
Qed.

Lemma parse_files_stops (files : list string) :
  forall parsed,
    is_ok (snd (parse parsed files)) = true -> Forall parses files.
Proof.
  induction files as [|file files IH]; intros parsed H; [constructor|].
  unfold parse in H. cbn [parse_files] in H.
  destruct (relpath file) as [relative|] eqn:Erel; [|discriminate H].
  destruct (load_file G Metadata get_data fs file) as [o [log_data|]] eqn:El;
    [|discriminate H].
  constructor.
  - split; [now rewrite Erel|]. now rewrite El.
  - apply (IH (dict_set String.eqb file log_data parsed)).
    unfold parse.
    destruct (parse_files G Metadata get_data fs relpath
                (dict_set String.eqb file log_data parsed) files).
    exact H.
Qed.

(** X11. [parse_all] returns a result exactly when every file of the
    list can be announced and loaded; one file that cannot be opened or
    parsed makes the whole call raise.  When it returns, the result
    holds the files in order of first appearance (a file listed twice
    is loaded twice and kept once), and each file is mapped to what
    [load_file] returns for it. *)
Theorem parse_all_returns_iff_every_file_parses (files : list string) :
  (is_ok (snd (parse_all G Metadata get_data fs relpath files)) = true
   <-> Forall (Samples.parses G Metadata get_data fs relpath) files)
  /\ forall parsed out,
       parse_all G Metadata get_data fs relpath files = (out, Ok parsed) ->
       dict_keys parsed = first_files [] files
       /\ forall f, In f files ->
            exists o log_data,
              load_file G Metadata get_data fs f = (o, Ok log_data)
              /\ dict_get String.eqb f parsed = Some log_data.
Proof.
  split.
  - split; [apply parse_files_stops|].
    intros Hall. destruct (parse_files_all files Hall []) as (o & p & Hp & _).
    unfold parse_all. fold parse. now rewrite Hp.
  - intros parsed out H.
    assert (Hall : Forall parses files).
    { apply (parse_files_stops files []). unfold parse.
      unfold parse_all in H. now rewrite H. }
    destruct (parse_files_all files Hall []) as (o & p & Hp & Hkeys & Hget).
    unfold parse_all in H. fold parse in H. rewrite Hp in H.
    inversion H; subst. split; [exact Hkeys|].
    intros f Hin. rewrite Hget.
    rewrite Forall_forall in Hall. destruct (Hall f Hin) as [_ Hl].
    apply existsb_eqb_In in Hin. rewrite Hin.
    unfold load in *.
    destruct (load_file G Metadata get_data fs f) as [o' [log_data|]];
      [|discriminate Hl].
    exists o', log_data. split; reflexivity.
Qed.

End BatchResults.

Lemma parse_all_returns_iff_every_file_parses_witness :
  is_ok (snd (parse_all module_globals _ text_get_data sample_fs
                sample_relpath ["good.log"; "good.log"])) = true
  /\ is_ok (snd (parse_all module_globals _ text_get_data sample_fs
                   sample_relpath ["good.log"; "missing.log"])) = false.
Proof.
  split.
  - apply (proj1 (parse_all_returns_iff_every_file_parses module_globals _
                    text_get_data sample_fs sample_relpath
                    ["good.log"; "good.log"])).
    repeat constructor.
  - destruct (is_ok (snd (parse_all module_globals _ text_get_data sample_fs
                            sample_relpath ["good.log"; "missing.log"])))
      eqn:E; [|reflexivity].
    apply (proj1 (parse_all_returns_iff_every_file_parses module_globals _
                    text_get_data sample_fs sample_relpath
                    ["good.log"; "missing.log"])) in E.
    inversion E as [|x l _ E']; subst. inversion E' as [|x l [_ Hl] _]; subst.
    vm_compute in Hl. discriminate Hl.
Defined.

(** *** File discovery *)





(** *** What the module as it stands can return *)

Lemma LogEntry_init_module_never_returns (r : row) (preread : option Z)
      (entries : option OrderedDict) :
  is_ok (LogEntry_init module_globals r preread entries) = false.
Proof.
  unfold LogEntry_init, LogEntry_fields.
  destruct (in_t_col r "read"); reflexivity.
Qed.

Lemma read_rows_module_keeps (rows : stream row) (entries : OrderedDict)
      (preread : option Z) (out : stdout) (entries' : OrderedDict) :
  read_rows module_globals rows entries preread = (out, Ok entries') ->
  entries' = entries.
Proof.
  destruct rows as [|msg|r rest]; cbn [read_rows]; intros H.
  - now inversion H.
  - now inversion H.
  - pose proof (LogEntry_init_module_never_returns r preread (Some entries))
      as Hno.
    pose proof (LogEntry_init_row_error module_globals r preread
                  (Some entries)) as Hcsv.
    destruct (LogEntry_init module_globals r preread (Some entries))
      as [e|e]; [discriminate Hno|].
    destruct e; try discriminate H. elim Hcsv.
Qed.

(** C4. In the module as it stands a file with a data row gets no
    sequence, in row order or any other: whatever the read timestamps
    are, [load_file] raises at the first data row and has printed
    nothing.  When the metadata decodes, the exception is the
    [NameError] for [CpuUsage], or the one [in_t] raises on that row's
    read column. *)
Theorem C4_data_rows_give_no_sequence
        (Metadata : Type) (get_data : string -> result Metadata)
        (first : string) (lines yaml_lines tabular : list string)
        (skipped r : row) (rest : stream row) :
  read_yaml_lines lines = Ok (yaml_lines, tabular) ->
  DictReader tabular = Item skipped (Item r rest) ->
  exists e,
    load_lines module_globals Metadata get_data (first :: lines)
    = ([], Raise e)
    /\ (is_ok (get_data (join nl yaml_lines)) = true ->
        e = NameError "CpuUsage" \/ in_t_col r "read" = Raise e).
Proof.
  intros Hyaml Hrows. unfold load_lines. rewrite Hyaml. unfold load_tabular.
  destruct (get_data (join nl yaml_lines)) as [metadata|e].
  2:{ exists e. split; [reflexivity|discriminate]. }
  rewrite Hrows. cbn [next read_rows].
  unfold LogEntry_init, LogEntry_fields.
  destruct (in_t_col r "read") as [n|e] eqn:E; cbn [bind call].
  - exists (NameError "CpuUsage"). split; [reflexivity|]. intros _. now left.
  - exists e. split; [|intros _; now right].
    destruct (in_t_col_raises r "read" e E) as [[-> _]|[-> _]]; reflexivity.
Qed.

Lemma C4_witness :
  load_lines module_globals _ text_get_data repeated_read_file
  = ([], Raise (NameError "CpuUsage")).
Proof.
  destruct (C4_data_rows_give_no_sequence _ text_get_data delimiter_line
              (tl repeated_read_file) [] (skipn 2 repeated_read_file)
              (make_row columns columns) (data_row "5" "8:0 Read 5" "1")
              (prepend [data_row "7" "8:0 Read 6" "2";
                        data_row "5" "8:0 Read 7" "3"] Done))
    as (e & He & Hor).
  - reflexivity.
  - vm_compute. reflexivity.
  - destruct (Hor eq_refl) as [->|Hread]; [exact He|].
    vm_compute in Hread. discriminate Hread.
Defined.

(** X13. In the module as it stands, [load_file] never returns a
    sequence with a sample in it: whenever it returns, for whatever
    file, the sequence is empty, and so is the timestamp-delta array
    computed from it.  The first row that reaches [LogEntry] ends the
    call with an exception. *)
Theorem module_returns_only_empty_sequences
        (Metadata : Type) (get_data : string -> result Metadata)
        (csvfile : list string) (out : stdout) (entries : OrderedDict)
        (metadata : Metadata) :
  load_lines module_globals Metadata get_data csvfile
  = (out, Ok (entries, metadata)) ->
  entries = [] /\ get_ts_deltas (dict_keys entries) = Ok [].
Proof.
  intros H. destruct (load_lines_inv _ _ _ _ _ _ _ H) as (rows & Hrows).
  apply read_rows_module_keeps in Hrows. subst. split; reflexivity.
Qed.

Lemma module_returns_only_empty_sequences_witness :
  load_lines module_globals _ text_get_data no_rows_file = ([], Ok ([], None))
  /\ ([] : OrderedDict) = [] /\ get_ts_deltas (dict_keys ([] : OrderedDict)) = Ok [].
Proof.
  split; [vm_compute; reflexivity|].
  apply (module_returns_only_empty_sequences _ text_get_data no_rows_file []
           [] None).
  vm_compute. reflexivity.
Defined.

(** *** The run as a whole *)

Section Run.
Variable G : Globals.
Variable Metadata : Type.
Variable get_data : string -> result Metadata.
Variable fs : string -> option (list string).
Variable relpath : string -> result string.
Variable listdir : string -> result (list string).
Variable abspath : string -> result string.
Variable getcwd : result string.

Lemma analyze_all_tables (data : list (string * (OrderedDict * Metadata))) :
  exists tables,
    fst (analyze_all Metadata data) = map Table tables
    /\ (is_ok (snd (analyze_all Metadata data)) = true ->
        Forall2 (fun kv t => analyze_timestamps (fst (snd kv)) = Ok t)
                data tables).
Proof.
  induction data as [|[name [entries metadata]] data (tables & Ht & Hall)].
  - exists []. split; [reflexivity|constructor].
  - cbn [analyze_all].
    destruct (analyze_timestamps entries) as [table|e] eqn:E.
    + exists (table :: tables).
      destruct (analyze_all Metadata data) as [out r]. cbn [fst snd] in *.
      split; [now rewrite Ht|].
      intros Hr. constructor; [exact E|now apply Hall].
    + exists []. split; [reflexivity|discriminate].
Qed.

(** X14. [main] prints every parsing message before any statistics
    table.  A table is printed only when the directory was listed and
    every discovered file parsed: one file that fails to parse ends the
    run before any file is analysed.  When [main] returns, it has
    printed exactly one table per parsed file, in the order of the
    parsed result, each the analysis of that file's sequence. *)
Theorem main_analyses_after_parsing (root : option string) :
  let resolved_root :=
    match root with Some path => abspath path | None => getcwd end in
  let '(out, r) :=
    main G Metadata get_data fs relpath listdir abspath getcwd root in
  exists texts tables,
    out = (map Text texts ++ map Table tables)%list
    /\ (tables <> [] \/ is_ok r = true ->
        exists dir files data,
          resolved_root = Ok dir
          /\ get_all_files listdir dir "log" = Ok files
          /\ parse_all G Metadata get_data fs relpath files = (texts, Ok data)
          /\ (is_ok r = true ->
              Forall2 (fun kv t => analyze_timestamps (fst (snd kv)) = Ok t)
                      data tables)).
Proof.
  cbv zeta. unfold main.
  destruct (match root with Some path => abspath path | None => getcwd end)
    as [dir|e] eqn:Er.
  2:{ exists [], []. split; [reflexivity|]. intros [H|H];
        [now elim H|discriminate H]. }
  destruct (get_all_files listdir dir "log") as [files|e] eqn:Ef.
  2:{ exists [], []. split; [reflexivity|]. intros [H|H];
        [now elim H|discriminate H]. }
  destruct (parse_all G Metadata get_data fs relpath files)
    as [texts [data|e]] eqn:Ep.
  - destruct (analyze_all_tables data) as (tables & Ht & Hall).
    destruct (analyze_all Metadata data) as [out r]. cbn [fst snd] in *.
    exists texts, tables. split; [now rewrite Ht|].
    intros _. exists dir, files, data.
    split; [reflexivity|]. split; [exact Ef|].
    split; [exact Ep|exact Hall].
  - exists texts, []. split; [now rewrite app_nil_r|].
    intros [H|H]; [now elim H|discriminate H].
Qed.

End Run.

(** *** Attribute access on a [DataClass] *)

Lemma underscores_shift (k : nat) (attr : string) :
  underscores k (String "_" attr) = String "_" (underscores k attr).
Proof. induction k as [|k IH]; cbn; [reflexivity|now rewrite IH]. Qed.

Lemma underscores_succ (k : nat) (attr : string) :
  underscores (S k) attr = underscores k (String "_" attr).
Proof. cbn. now rewrite underscores_shift. Qed.

Lemma DataClass_getattr_outcome {V} (found : string -> option V)
      (frames : nat) (attr : string) :
  match DataClass_getattr found frames attr with
  | Returns (Some v) =>
      exists k, (1 <= k <= frames)%nat
                /\ found (underscores k attr) = Some v
                /\ forall j, (1 <= j < k)%nat -> found (underscores j attr) = None
  | Returns None => False
  | RaisesAttributeError => False
  | RaisesRecursionError =>
      forall k, (1 <= k <= frames)%nat -> found (underscores k attr) = None
  end.
Proof.
  revert attr. induction frames as [|frames IH]; intros attr.
  - cbn. intros k Hk. lia.
  - cbn [DataClass_getattr].
    destruct (found (String "_" attr)) as [v|] eqn:E.
    + exists 1%nat. split; [lia|]. split; [exact E|]. intros j Hj. lia.
    + specialize (IH (String "_" attr)).
      destruct (DataClass_getattr found frames (String "_" attr))
        as [[v|]| |]; try contradiction.
      * destruct IH as (k & Hk & Hv & Hnone).
        exists (S k). split; [lia|]. split.
        -- now rewrite underscores_succ.
        -- intros [|[|j]] Hj; [lia|exact E|].
           rewrite underscores_succ. apply Hnone. lia.
      * intros [|[|k]] Hk; [lia|exact E|].
        rewrite underscores_succ. apply IH. lia.
Qed.

(** X15. Reading [self.attr] on a [DataClass] returns the value found
    under [attr] with the fewest underscores put in front (none, one,
    two, ...), as long as the recursion limit is not passed on the way.
    When none of these names is found within the limit it raises
    [RecursionError]: each retry looks up a longer name, so the
    [AttributeError] handler is never reached and [None] is never
    returned for a missing attribute. *)
Theorem attribute_outcome {V} (found : string -> option V) (frames : nat)
        (attr : string) :
  match attribute found frames attr with
  | Returns (Some v) =>
      exists k, (k <= frames)%nat
                /\ found (underscores k attr) = Some v
                /\ forall j, (j < k)%nat -> found (underscores j attr) = None
  | Returns None => False
  | RaisesAttributeError => False
  | RaisesRecursionError =>
      forall k, (k <= frames)%nat -> found (underscores k attr) = None
  end.
Proof.
  unfold attribute. destruct (found attr) as [v|] eqn:E.
  - exists 0%nat. split; [lia|]. split; [exact E|]. intros j Hj. lia.
  - pose proof (DataClass_getattr_outcome found frames attr) as H.
    destruct (DataClass_getattr found frames attr) as [[v|]| |];
      try contradiction.
    + destruct H as (k & Hk & Hv & Hnone).
      exists k. split; [lia|]. split; [exact Hv|].
      intros [|j] Hj; [exact E|apply Hnone; lia].
    + intros [|k] Hk; [exact E|apply H; lia].
Qed.

(** *** [parse_blkio] under the names the module binds *)

(** X16. With the module's names as they are bound when [parser.py] has
    run, [parse_blkio] never builds an entry: a cell without a kept
    fragment gives the empty list, a cell with one raises [TypeError]
    (the class the name [BlkioEntry] denotes indexes its argument, a
    string, with a column name), and no cell ([None]) raises
    [AttributeError]. *)
Theorem parse_blkio_as_bound (raw : option string) :
  parse_blkio module_globals raw
  = match raw with
    | None => Raise AttributeError
    | Some s =>
        match filter blkio_keep (map strip (split "," s)) with
        | [] => Ok []
        | _ :: _ => Raise TypeError
        end
    end.
Proof.
  destruct raw as [s|]; [|reflexivity].
  unfold parse_blkio. cbn [split_attr bind].
  destruct (filter blkio_keep (map strip (split "," s))); reflexivity.
Qed.

(** *** The per-cpu usage list *)

Lemma traverse_ok_inv {A B} (f : A -> result B) (xs : list A) (ys : list B) :
  traverse f xs = Ok ys -> Forall2 (fun x y => f x = Ok y) xs ys.
Proof.
  revert ys. induction xs as [|x xs IH]; intros ys H; cbn in H.
  - injection H as <-. constructor.
  - destruct (f x) as [y|] eqn:Ey; cbn in H; [|discriminate H].
    destruct (traverse f xs) as [ys'|]; cbn in H; [|discriminate H].
    injection H as <-. constructor; [exact Ey|now apply IH].
Qed.

(** X17. When the class that reads the cpu columns decodes a row, the
    row has a [cpu.usage.percpu] cell and the [percpu] list has one
    integer per token of that cell split on single spaces, in order:
    each is [in_t] of the stripped token, so an empty token (an empty
    cell, two spaces in a row) counts as [0] and the list is never
    empty. *)
Theorem percpu_per_token (r : row) (c : BlkioEntry2) :
  BlkioEntry2_init (Row r) = Ok c ->
  exists cell,
    dict_get String.eqb "cpu.usage.percpu" r = Some (Some cell)
    /\ Forall2 (fun token n => in_t (Some (strip token)) = Ok n)
               (split " " cell) (percpu c)
    /\ percpu c <> [].
Proof.
  intros H. unfold BlkioEntry2_init in H. step_binds H.
  injection H as <-. cbn [percpu].
  match goal with
  | Hg : getitem r "cpu.usage.percpu" = Ok ?v,
    Hs : split_attr ?v " " = Ok ?cpus,
    Ht : traverse _ ?cpus = Ok ?ns |- _ =>
      unfold getitem in Hg;
      destruct (dict_get String.eqb "cpu.usage.percpu" r) as [v'|];
        [|discriminate Hg];
      injection Hg as ->;
      destruct v as [cell|]; [|discriminate Hs];
      cbn in Hs; injection Hs as <-;
      apply traverse_ok_inv in Ht;
      exists cell; split; [reflexivity|]; split; [exact Ht|];
      intros ->; inversion Ht as [Hnil|];
      now apply (split_not_nil " " cell)
  end.
Qed.

Lemma percpu_per_token_witness :
  exists cell,
    dict_get String.eqb "cpu.usage.percpu" (data_row "100" "8:0 Read 5" "1")
    = Some (Some cell)
    /\ Forall2 (fun token n => in_t (Some (strip token)) = Ok n)
               (split " " cell) [5; 5]%Z
    /\ [5; 5]%Z <> [].
Proof.
  apply (percpu_per_token (data_row "100" "8:0 Read 5" "1")
           (mkBlkioEntry2 10 4 6 [5; 5] 1 2 0 0 0)).
  vm_compute. reflexivity.
Defined.

(** *** Errors of the interval analysis *)

Lemma traverse_to_ms_errors (timestamps : list Z) :
  match traverse to_ms timestamps with
  | Ok _ => Forall representable timestamps
  | Raise e => e = OverflowError /\ Exists (fun t => ~ representable t) timestamps
  end.
Proof.
  induction timestamps as [|t ts IH]; cbn [traverse].
  - constructor.
  - unfold to_ms at 1. unfold pyfloat at 1.
    destruct (PrimFloat.is_infinity (float_of_Z t)) eqn:Et; cbn [bind].
    + split; [reflexivity|]. left. unfold representable, pyfloat.
      rewrite Et. discriminate.
    + destruct (traverse to_ms ts) as [ms|e]; cbn [bind].
      * constructor; [|exact IH]. unfold representable, pyfloat.
        now rewrite Et.
      * destruct IH as [-> Hex]. split; [reflexivity|now right].
Qed.

(** X18. [analyze_timestamps] returns exactly when every read timestamp
    of the sequence converts to a float, and the one exception it can
    raise is the [OverflowError] of [float(timestamp)]: the division,
    the differences and the table raise nothing. *)
Theorem analyze_timestamps_errors (entries : OrderedDict) :
  match analyze_timestamps entries with
  | Ok _ => Forall representable (dict_keys entries)
  | Raise e =>
      e = OverflowError
      /\ Exists (fun t => ~ representable t) (dict_keys entries)
  end.
Proof.
  unfold analyze_timestamps, get_ts_deltas.
  pose proof (traverse_to_ms_errors (dict_keys entries)) as H.
  destruct (traverse to_ms (dict_keys entries)) as [ms|e]; exact H.
Qed.

(** *** Undefined values among the samples *)

Lemma is_nan_Prim2SF (a : float) :
  PrimFloat.is_nan a = true -> Prim2SF a = S754_nan.
Proof.
  unfold PrimFloat.is_nan. rewrite FloatAxioms.eqb_spec.
  destruct (Prim2SF a) as [s|s| |s m e]; cbn; try reflexivity.
  - destruct s; discriminate.
  - destruct s; discriminate.
  - rewrite Z.compare_refl, Pos.compare_cont_refl.
    destruct s; discriminate.
Qed.

Lemma leb_nan_r (x a : float) :
  PrimFloat.is_nan a = true -> PrimFloat.leb x a = false.
Proof.
  intros H. rewrite FloatAxioms.leb_spec, (is_nan_Prim2SF a H).
  now destruct (Prim2SF x) as [s|s| |s m e].
Qed.

Lemma filter_length_le {A} (f : A -> bool) (l : list A) :
  (List.length (filter f l) <= List.length l)%nat.
Proof.
  induction l as [|x l IH]; cbn; [lia|]. destruct (f x); cbn; lia.
Qed.

(** X19. What [remove_outliers] returns holds only elements of the
    array, no more of them than the array has, and never a NaN: both
    comparisons of the comprehension are false for a NaN, whatever the
    quartiles and [z] are. *)
Theorem remove_outliers_keeps_no_NaN (arr : list float) (z : float)
        (kept : list float) :
  remove_outliers arr z = Ok kept ->
  Forall (fun a => In a arr /\ PrimFloat.is_nan a = false) kept
  /\ (List.length kept <= List.length arr)%nat.
Proof.
  intros H. unfold remove_outliers in H. step_binds H.
  injection H as <-. split; [|apply filter_length_le].
  apply Forall_forall. intros x Hx. apply filter_In in Hx.
  destruct Hx as [Hin Hw]. split; [exact Hin|].
  destruct (PrimFloat.is_nan x) eqn:En; [|reflexivity].
  unfold within in Hw. rewrite (leb_nan_r _ x En) in Hw. discriminate Hw.
Qed.

Lemma remove_outliers_keeps_no_NaN_witness :
  Forall (fun a => In a [1; 2; 3; 100]%float /\ PrimFloat.is_nan a = false)
         [1; 2; 3]%float
  /\ (List.length [1; 2; 3]%float <= List.length [1; 2; 3; 100]%float)%nat.
Proof.
  apply (remove_outliers_keeps_no_NaN [1; 2; 3; 100]%float z_default).
  vm_compute. reflexivity.
Defined.

(** *** Blkio fragments *)

Lemma in_t_of_decimal (n : Z) : in_t (Some (decimal n)) = Ok n.
Proof.
  unfold in_t. pose proof (decimal_not_empty n) as Hne.
  destruct (decimal n) eqn:E; [contradiction|].
  rewrite <- E. apply int_decimal.
Qed.

Lemma free_of_app (c : ascii) (a b : string) :
  free_of c (a ++ b) = free_of c a && free_of c b.
Proof.
  induction a as [|d a IH]; cbn; [reflexivity|].
  now rewrite IH, andb_assoc.
Qed.

Lemma split_free (sep : ascii) (x : string) :
  free_of sep x = true -> split sep x = [x].
Proof.
  induction x as [|d x IH]; cbn; [reflexivity|].
  intros H. apply andb_true_iff in H. destruct H as [Hd Hx].
  apply negb_true_iff in Hd. rewrite Hd, (IH Hx). reflexivity.
Qed.

Lemma split_app_sep (sep : ascii) (x y : string) :
  free_of sep x = true ->
  split sep (x ++ String sep y) = x :: split sep y.
Proof.
  induction x as [|d x IH]; cbn.
  - intros _. now rewrite Ascii.eqb_refl.
  - intros H. apply andb_true_iff in H. destruct H as [Hd Hx].
    apply negb_true_iff in Hd. rewrite Hd, (IH Hx). reflexivity.
Qed.

Lemma numeral_free_of (c : ascii) (d : Decimal.uint) :
  digit c = None ->
  free_of c (DecimalString.NilEmpty.string_of_uint d) = true.
Proof.
  intros Hc.
  induction d; cbn [DecimalString.NilEmpty.string_of_uint free_of];
    [reflexivity|..];
    rewrite IHd, andb_true_r; apply negb_true_iff;
    match goal with
    | |- Ascii.eqb ?x c = false =>
        destruct (Ascii.eqb_spec x c) as [<-|]; [discriminate Hc|reflexivity]
    end.
Qed.

Lemma decimal_free_of (c : ascii) (n : Z) :
  digit c = None -> c <> "-"%char -> free_of c (decimal n) = true.
Proof.
  intros Hc Hminus.
  assert (Hu : forall d,
             free_of c (DecimalString.NilZero.string_of_uint d) = true).
  { intros d. unfold DecimalString.NilZero.string_of_uint.
    destruct d; try apply (numeral_free_of c _ Hc).
    cbn [free_of]. rewrite andb_true_r. apply negb_true_iff.
    destruct (Ascii.eqb_spec "0" c) as [<-|]; [discriminate Hc|reflexivity]. }
  unfold decimal, DecimalString.NilZero.string_of_int.
  destruct (Z.to_int n) as [d|d]; [apply Hu|].
  cbn [free_of]. rewrite Hu, andb_true_r. apply negb_true_iff.
  destruct (Ascii.eqb_spec "-" c) as [<-|]; [now elim Hminus|reflexivity].
Qed.

(** X20. The first class named [BlkioEntry] reads back what was
    written: from the fragment [major:minor op value], with the integers
    as decimal numerals and an operation without a space in it, it
    builds the entry with exactly these four fields. *)
Theorem BlkioEntry_reads_back_a_fragment (major minor value : Z)
        (op : string) :
  free_of " " op = true ->
  BlkioEntry1_init (Str (blkio_fragment major minor op value))
  = Ok (mkBlkioEntry1 major minor value op).
Proof.
  intros Hop. unfold BlkioEntry1_init, blkio_fragment.
  assert (Hsp : forall n, free_of " " (decimal n) = true)
    by (intros n; now apply decimal_free_of).
  assert (Hcol : forall n, free_of ":" (decimal n) = true)
    by (intros n; now apply decimal_free_of).
  change (decimal major ++ ":" ++ decimal minor ++ " " ++ op ++ " "
          ++ decimal value)
    with (decimal major
          ++ String ":" (decimal minor
                         ++ String " " (op ++ String " " (decimal value)))).
  replace (decimal major
           ++ String ":" (decimal minor
                          ++ String " " (op ++ String " " (decimal value))))
    with ((decimal major ++ String ":" (decimal minor))
          ++ String " " (op ++ String " " (decimal value)))
    by (now rewrite string_app_assoc).
  rewrite split_app_sep.
  2:{ rewrite free_of_app. cbn [free_of]. now rewrite !Hsp. }
  rewrite (split_app_sep " " op _ Hop), (split_free " " _ (Hsp value)).
  rewrite (split_app_sep ":" _ _ (Hcol major)), (split_free ":" _ (Hcol minor)).
  rewrite !in_t_of_decimal. reflexivity.
Qed.

Lemma BlkioEntry_reads_back_a_fragment_witness :
  free_of " " "Read" = true
  /\ BlkioEntry1_init (Str (blkio_fragment 8 0 "Read" 4096))
     = Ok (mkBlkioEntry1 8 0 4096 "Read").
Proof.
  split; [reflexivity|].
  apply (BlkioEntry_reads_back_a_fragment 8 0 4096 "Read"). reflexivity.
Defined.

(** *** [Blkio] and [PidsStats] *)

(** X21. [Blkio] decodes exactly when each of its eight cells decodes
    with [parse_blkio], and then each field holds the list of its cell.
    With the module's names as they are bound, a [Blkio] that is built
    holds eight empty lists. *)
Theorem Blkio_columns (G : Globals) (r : row) :
  (forall b,
     Blkio_init G r = Ok b <->
     Forall2 (fun col v => parse_blkio_col G r col = Ok v)
             blkio_columns (blkio_values b))
  /\ (forall b,
        Blkio_init module_globals r = Ok b ->
        Forall (fun v => v = []) (blkio_values b)).
Proof.
  assert (Hiff : forall G' b,
             Blkio_init G' r = Ok b <->
             Forall2 (fun col v => parse_blkio_col G' r col = Ok v)
                     blkio_columns (blkio_values b)).
  { intros G' b. split.
    - intros H. unfold Blkio_init in H. step_binds H.
      inversion H; subst. cbn. repeat constructor; assumption.
    - intros H. unfold blkio_columns, blkio_values in H.
      repeat match goal with
             | H : Forall2 _ (_ :: _) (_ :: _) |- _ =>
                 inversion H; clear H; subst
             end.
      unfold Blkio_init.
      repeat match goal with
             | H : parse_blkio_col G' r _ = Ok _ |- _ =>
                 rewrite H; clear H; cbn [bind]
             end.
      now destruct b. }
  split; [apply Hiff|].
  intros b H. apply Hiff in H.
  assert (Hcell : forall col v,
             parse_blkio_col module_globals r col = Ok v -> v = []).
  { intros col v. unfold parse_blkio_col.
    destruct (getitem r col) as [raw|]; cbn [bind]; [|discriminate].
    unfold parse_blkio. destruct raw as [s|]; [|discriminate].
    cbn [split_attr bind].
    destruct (filter blkio_keep (map strip (split "," s)));
      [now intros [= <-]|discriminate]. }
  assert (Hall : forall cols vs,
             Forall2 (fun col v => parse_blkio_col module_globals r col = Ok v)
                     cols vs ->
             Forall (fun v => v = []) vs).
  { induction 1 as [|col v cols vs Hv _ IH]; constructor;
      [exact (Hcell col v Hv)|exact IH]. }
  exact (Hall _ _ H).
Qed.

(** X22. [PidsStats] stores 0 as the limit for the cell [max], and
    equally for the cell [0], an empty cell and a cell the record does
    not reach: the limit it stores does not tell these apart. *)
Theorem PidsStats_unlimited_is_zero (r : row) (cell : option string)
        (current : Z) :
  in_t_col r "pids.current" = Ok current ->
  dict_get String.eqb "pids.max" r = Some cell ->
  In cell unlimited_cells ->
  PidsStats_init r = Ok (mkPidsStats current 0).
Proof.
  intros Hc Hget Hin. unfold PidsStats_init.
  rewrite Hc. cbn [bind]. unfold in_t_col, getitem. rewrite Hget.
  cbn [bind].
  destruct Hin as [<-|[<-|[<-|[<-|[]]]]]; reflexivity.
Qed.

Lemma PidsStats_unlimited_is_zero_witness :
  PidsStats_init (data_row "100" "8:0 Read 5" "3") = Ok (mkPidsStats 3 0).
Proof.
  apply (PidsStats_unlimited_is_zero _ (Some "max")).
  - vm_compute. reflexivity.
  - vm_compute. reflexivity.
  - left. reflexivity.
Defined.
